(** * Verification of the book-catalogue scraper (src/scraper.py)

    A shallow embedding of the scraper: Python text as lists of code
    points, the parsed HTML document as a tree queried by the selectors
    the program uses, exceptions as a result type, and the network, the
    log, the files and the database as an explicit world that every
    effectful function threads. *)

From Stdlib Require Import ZArith NArith QArith Qpower Ascii String List Lia.
From stdpp Require Import base option list gmap.

Local Open Scope N_scope.

(** ** Python text

    A Python [str] is a sequence of Unicode code points. *)

Definition str : Type := list N.

(** [u "abc"] is the text of an ASCII literal. *)
Definition u (s : string) : str := map N_of_ascii (list_ascii_of_string s).

(** The pound sign, U+00A3. *)
Definition LIBRA : N := 163.

(** [str.isspace] on one code point (Py_UNICODE_ISSPACE): what [str.strip()]
    removes. *)
Definition es_espacio (c : N) : bool :=
  ((9 <=? c) && (c <=? 13)) || ((28 <=? c) && (c <=? 32)) ||
  (c =? 133) || (c =? 160) || (c =? 5760) ||
  ((8192 <=? c) && (c <=? 8202)) ||
  (c =? 8232) || (c =? 8233) || (c =? 8239) || (c =? 8287) || (c =? 12288).

(** The code points of the digit zero of every Unicode decimal script
    (category Nd, Unicode 14); each is followed by its digits one to nine. *)
Definition CEROS_DECIMALES : list N :=
  [48; 1632; 1776; 1984; 2406; 2534; 2662; 2790; 2918; 3046; 3174; 3302;
   3430; 3558; 3664; 3792; 3872; 4160; 4240; 6112; 6160; 6470; 6608; 6784;
   6800; 6992; 7088; 7232; 7248; 42528; 43216; 43264; 43472; 43504; 43600;
   44016; 65296; 66720; 68912; 69734; 69872; 69942; 70096; 70384; 70736;
   70864; 71248; 71360; 71472; 71904; 72016; 72784; 73040; 73120; 92768;
   92864; 93008; 120782; 120792; 120802; 120812; 120822; 123200; 123632;
   125264; 130032].

Definition en_decena (c z : N) : bool := (z <=? c) && (c <? z + 10).

(** Py_UNICODE_TODECIMAL: the decimal value of a digit of any script. *)
Definition valor_decimal (c : N) : option N :=
  match List.find (en_decena c) CEROS_DECIMALES with
  | Some z => Some (c - z)
  | None => None
  end.

(** What [\d] matches in a [str] pattern of [re]. *)
Definition es_digito (c : N) : bool :=
  match valor_decimal c with Some _ => true | None => false end.

Fixpoint tomar_mientras (p : N -> bool) (t : str) : str :=
  match t with
  | [] => []
  | c :: r => if p c then c :: tomar_mientras p r else []
  end.

Fixpoint saltar_mientras (p : N -> bool) (t : str) : str :=
  match t with
  | [] => []
  | c :: r => if p c then saltar_mientras p r else t
  end.

(** [t.strip()] *)
Definition strip (t : str) : str :=
  rev (saltar_mientras es_espacio (rev (saltar_mientras es_espacio t))).

(** [t.replace(c, "")] for a one-character [c]: every occurrence goes. *)
Definition quitar (c : N) (t : str) : str :=
  List.filter (fun x => negb (x =? c)) t.

(** ** Exceptions *)

Inductive excepcion : Type :=
| AttributeError | TypeError | KeyError | ValueError | IndexError.

Inductive resultado (A : Type) : Type :=
| Ok (a : A)
| Lanza (e : excepcion).
Arguments Ok {A} a.
Arguments Lanza {A} e.

#[global] Instance resultado_ret : MRet resultado := fun A a => Ok a.

#[global] Instance resultado_bind : MBind resultado := fun A B f r =>
  match r with
  | Ok a => f a
  | Lanza e => Lanza e
  end.

(** ** Number conversion of the interpreter *)

(** _PyUnicode_TransformDecimalAndSpaceToASCII: what [int] and [float] do
    to a [str] before they read it.  ASCII stays, other white space becomes
    a blank, other decimal digits become ASCII digits, and the text is cut
    with a question mark at the first character that is none of these.
    (The interpreter hands back a text that is all ASCII as it is; the only
    character this treats otherwise is U+007F, which no number holds.) *)
Fixpoint transformar (t : str) : str :=
  match t with
  | [] => []
  | c :: r =>
      if c <? 127 then c :: transformar r
      else if es_espacio c then 32 :: transformar r
      else match valor_decimal c with
           | Some d => (48 + d) :: transformar r
           | None => [63]
           end
  end.

(** Py_ISSPACE *)
Definition es_espacio_ascii (c : N) : bool :=
  ((9 <=? c) && (c <=? 13)) || (c =? 32).

Definition strip_ascii (t : str) : str :=
  rev (saltar_mientras es_espacio_ascii (rev (saltar_mientras es_espacio_ascii t))).

Definition es_digito_ascii (c : N) : bool := (48 <=? c) && (c <=? 57).

(** The number a run of ASCII digits writes. *)
Definition entero_ascii (ds : str) : Z :=
  fold_left (fun acc c => (10 * acc + Z.of_N (c - 48))%Z) ds 0%Z.

(** An optional sign: whether it was a minus, and the rest. *)
Definition leer_signo (t : str) : bool * str :=
  match t with
  | c :: r =>
      if c =? 45 then (true, r)
      else if c =? 43 then (false, r)
      else (false, t)
  | [] => (false, t)
  end.

(** _Py_string_to_number_with_underscores: an underscore may stand only
    between two digits; the text comes back without them. *)
Fixpoint sin_guiones (prev : N) (t : str) : option str :=
  match t with
  | [] => if prev =? 95 then None else Some []
  | c :: r =>
      if c =? 95 then
        if es_digito_ascii prev then sin_guiones c r else None
      else if (prev =? 95) && negb (es_digito_ascii c) then None
      else option_map (cons c) (sin_guiones c r)
  end.

(** Digits of an integer literal: [digit (["_"] digit)*]. *)
Fixpoint digitos_con_guiones (prev : N) (t : str) : option str :=
  match t with
  | [] => if prev =? 95 then None else Some []
  | c :: r =>
      if c =? 95 then
        if es_digito_ascii prev then digitos_con_guiones c r else None
      else if es_digito_ascii c then option_map (cons c) (digitos_con_guiones c r)
      else None
  end.

(** [int(t)] in base ten.  Python integers are unbounded; the interpreter's
    configurable cap on the length of a converted literal is not part of
    the model. *)
Definition int_py (t : str) : resultado Z :=
  let '(neg, r) := leer_signo (strip_ascii (transformar t)) in
  match digitos_con_guiones 0 r with
  | Some (d :: ds) =>
      let n := entero_ascii (d :: ds) in
      Ok (if neg then (- n)%Z else n)
  | _ => Lanza ValueError
  end.

(** ** parsear_stock *)

(** [re.search(r"(\d+)", t)]: the group of the leftmost match, which is
    greedy. *)
Fixpoint buscar_digitos (t : str) : option str :=
  match t with
  | [] => None
  | c :: r =>
      if es_digito c then Some (tomar_mientras es_digito t)
      else buscar_digitos r
  end.

Definition parsear_stock (texto_stock : str) : resultado (option Z) :=
  match buscar_digitos texto_stock with
  | Some grupo => n ← int_py grupo; Ok (Some n)
  | None => Ok None
  end.

(** ** parsear_precio *)

(** A Python [float] read from a literal, held as the decimal number the
    literal writes: [Finito neg m e] is [(-1)^neg * m * 10^e].  The
    interpreter stores the binary64 value nearest to it; that rounding
    keeps the sign and the order, turns a too large number into an
    infinity and a too small one into a signed zero. *)
Inductive pyfloat : Type :=
| Finito (neg : bool) (mant : Z) (exp10 : Z)
| Infinito (neg : bool)
| NaN.

(** [f >= 0] *)
Definition no_negativo (f : pyfloat) : bool :=
  match f with
  | Finito neg m _ => negb neg || (m =? 0)%Z
  | Infinito neg => negb neg
  | NaN => false
  end.

(** [f < 0] *)
Definition negativo (f : pyfloat) : bool :=
  match f with
  | Finito neg m _ => neg && negb (m =? 0)%Z
  | Infinito neg => neg
  | NaN => false
  end.


Definition minuscula (c : N) : N :=
  if (65 <=? c) && (c <=? 90) then c + 32 else c.

Definition str_eqb (a b : str) : bool := bool_decide (a = b).

(** The exponent of a float literal, [("e" | "E") ["+" | "-"] digit+], and
    what follows it.  An [e] with no digit after it is not read. *)
Definition leer_exponente (t : str) : Z * str :=
  match t with
  | c :: r =>
      if (c =? 101) || (c =? 69) then
        let '(neg, r') := leer_signo r in
        match tomar_mientras es_digito_ascii r' with
        | [] => (0%Z, t)
        | ds =>
            let n := entero_ascii ds in
            (if neg then (- n)%Z else n, saltar_mientras es_digito_ascii r')
        end
      else (0%Z, t)
  | [] => (0%Z, t)
  end.

(** [digit* ["." digit*] [exponent]] with a digit before the exponent, and
    nothing after. *)
Definition leer_numero (neg : bool) (t : str) : resultado pyfloat :=
  let ent := tomar_mientras es_digito_ascii t in
  let r1 := saltar_mientras es_digito_ascii t in
  let '(frac, r2) :=
    match r1 with
    | c :: r =>
        if c =? 46 then
          (tomar_mientras es_digito_ascii r, saltar_mientras es_digito_ascii r)
        else ([], r1)
    | [] => ([], r1)
    end in
  match ent ++ frac with
  | [] => Lanza ValueError
  | ds =>
      match leer_exponente r2 with
      | (e, []) => Ok (Finito neg (entero_ascii ds) (e - Z.of_nat (length frac)))
      | (_, _ :: _) => Lanza ValueError
      end
  end.

(** [float(t)] *)
Definition float_py (t : str) : resultado pyfloat :=
  match sin_guiones 0 (strip_ascii (transformar t)) with
  | None => Lanza ValueError
  | Some s =>
      let '(neg, r) := leer_signo s in
      let m := map minuscula r in
      if str_eqb m (u "inf") || str_eqb m (u "infinity") then Ok (Infinito neg)
      else if str_eqb m (u "nan") then Ok NaN
      else leer_numero neg r
  end.

Definition parsear_precio (texto_precio : str) : resultado pyfloat :=
  float_py (strip (quitar LIBRA texto_precio)).

(** ** The parsed document

    What BeautifulSoup builds with html.parser: text nodes and tags.  A tag
    has its name, its [class] attribute as the list of its tokens if it has
    one, its other attributes as text, and its children. *)
#[warnings="-register-all"] Inductive nodo : Type :=
| Texto (t : str)
| Etiqueta (nombre : str) (clases : option (list str))
           (attrs : gmap str str) (hijos : list nodo).

(** Every node below [n], in document order. *)
Fixpoint descendientes (n : nodo) : list nodo :=
  match n with
  | Texto _ => []
  | Etiqueta _ _ _ hs => flat_map (fun h => h :: descendientes h) hs
  end.

(** [n.text]: the text nodes below [n], joined. *)
Fixpoint texto (n : nodo) : str :=
  match n with
  | Texto t => t
  | Etiqueta _ _ _ hs => flat_map texto hs
  end.

(** A compound selector: an optional tag name and classes. *)
Record compuesto : Type := Compuesto {
  c_nombre : option str;
  c_clases : list str
}.

Definition coincide (s : compuesto) (n : nodo) : bool :=
  match n with
  | Texto _ => false
  | Etiqueta nom cls _ _ =>
      match c_nombre s with Some x => str_eqb x nom | None => true end &&
      forallb (fun c => bool_decide (c ∈ default [] cls)) (c_clases s)
  end.

(** [n.select(s)] for a compound selector. *)
Definition select (s : compuesto) (n : nodo) : list nodo :=
  List.filter (coincide s) (descendientes n).

(** [n.select_one(s)] *)
Definition select_one (s : compuesto) (n : nodo) : option nodo :=
  head (select s n).

(** The nodes below [n] that match [s] and have an ancestor that matches
    [anc]; [dentro] says whether [n] or a node above it already does. *)
Fixpoint select_bajo_aux (anc s : compuesto) (dentro : bool) (n : nodo) : list nodo :=
  match n with
  | Texto _ => []
  | Etiqueta _ _ _ hs =>
      flat_map (fun h =>
        (if dentro && coincide s h then [h] else []) ++
        select_bajo_aux anc s (dentro || coincide anc h) h) hs
  end.

(** [soup.select_one("anc s")] on the document. *)
Definition select_one_bajo (anc s : compuesto) (soup : nodo) : option nodo :=
  head (select_bajo_aux anc s false soup).

(** [n.find(nombre)], which is what [n.h3] and [n.a] are. *)
Definition find_etiqueta (nombre : str) (n : nodo) : option nodo :=
  head (List.filter (coincide (Compuesto (Some nombre) [])) (descendientes n)).

(** The attributes of a tag that are text. *)
Definition atributos (n : nodo) : gmap str str :=
  match n with
  | Texto _ => ∅
  | Etiqueta _ _ at_ _ => at_
  end.

(** ** parsear_valoracion *)

Definition MAPA_VALORACIONES : gmap str Z :=
  list_to_map [(u "One", 1%Z); (u "Two", 2%Z); (u "Three", 3%Z);
               (u "Four", 4%Z); (u "Five", 5%Z)].

(** [try: ... except Exception] *)
Definition intentar {A} (cuerpo : resultado A) (manejador : excepcion -> resultado A)
  : resultado A :=
  match cuerpo with
  | Ok a => Ok a
  | Lanza e => manejador e
  end.

(** The loop of [parsear_valoracion] over the classes. *)
Fixpoint primera_valoracion (clases : list str) : option Z :=
  match clases with
  | [] => None
  | clase :: r =>
      match MAPA_VALORACIONES !! clase with
      | Some v => Some v
      | None => primera_valoracion r
      end
  end.

(** The argument is what [select_one] gave: a tag or [None].  Neither
    [None] nor a text node has a [get]. *)
Definition parsear_valoracion (etiqueta_html : option nodo) : resultado (option Z) :=
  intentar
    (match etiqueta_html with
     | Some (Etiqueta _ cls _ _) => Ok (primera_valoracion (default [] cls))
     | Some (Texto _) => Lanza AttributeError
     | None => Lanza AttributeError
     end)
    (fun _ => Ok None).

(** ** Page extraction *)

(** The dictionary [scrapear_pagina] builds for one product. *)
Record Producto : Type := {
  titulo : str;
  precio : pyfloat;
  valoracion : option Z;
  cantidad_stock : option Z;
  texto_stock : str
}.

Definition SEL_ARTICULO : compuesto := Compuesto (Some (u "article")) [u "product_pod"].
Definition SEL_PRECIO : compuesto := Compuesto None [u "price_color"].
Definition SEL_VALORACION : compuesto := Compuesto None [u "star-rating"].
Definition SEL_STOCK : compuesto := Compuesto None [u "availability"].
Definition SEL_LI_NEXT : compuesto := Compuesto (Some (u "li")) [u "next"].
Definition SEL_A : compuesto := Compuesto (Some (u "a")) [].

(** [articulo.h3.a["title"]] *)
Definition extraer_titulo (articulo : nodo) : resultado str :=
  match find_etiqueta (u "h3") articulo with
  | None => Lanza AttributeError
  | Some h3 =>
      match find_etiqueta (u "a") h3 with
      | None => Lanza TypeError
      | Some a =>
          match atributos a !! u "title" with
          | Some t => Ok t
          | None => Lanza KeyError
          end
      end
  end.

(** [n.select_one(s).text] *)
Definition texto_de (s : compuesto) (n : nodo) : resultado str :=
  match select_one s n with
  | Some e => Ok (texto e)
  | None => Lanza AttributeError
  end.

(** The body of the [try] of [scrapear_pagina], for one article. *)
Definition procesar_articulo (articulo : nodo) : resultado Producto :=
  titulo_ ← extraer_titulo articulo;
  texto_precio ← texto_de SEL_PRECIO articulo;
  precio_ ← parsear_precio texto_precio;
  valoracion_ ← parsear_valoracion (select_one SEL_VALORACION articulo);
  texto ← texto_de SEL_STOCK articulo;
  let texto_stock_ := strip texto in
  cantidad ← parsear_stock texto_stock_;
  Ok {| titulo := titulo_; precio := precio_; valoracion := valoracion_;
        cantidad_stock := cantidad; texto_stock := texto_stock_ |}.

(** ** The world: network, log, files, database *)

Inductive evento : Type :=
| Peticion (url : str)            (* requests.get(url, timeout=10) *)
| LogInfoScrapeando (url : str)
| LogInfoCompletado (total : nat)
| LogError (url : str)
| LogWarning (e : excepcion)
| Dormir.                         (* time.sleep(TIEMPO_ESPERA_SEGUNDOS) *)

(** A value written to a file or a table. *)
Inductive valor : Type :=
| VStr (s : str) | VFloat (f : pyfloat) | VInt (n : Z) | VNone.

(** What has been written to a file since it was opened. *)
Inductive escrito : Type :=
| FilaCSV (campos : list valor)
| DocJSON (datos : list Producto).

Record mundo : Type := Mundo {
  traza : list evento;
  archivos : gmap str (list escrito);
  bases : gmap str (list (Z * list valor))
}.

Definition mundo_inicial : mundo := Mundo [] ∅ ∅.

(** The network: what the request number [n] of the run, for [url], gets;
    [None] is any [requests.RequestException]. *)
Definition red_t : Type := nat -> str -> option nodo.

Definition es_peticion (e : evento) : bool :=
  match e with Peticion _ => true | _ => false end.

Definition num_peticiones (w : mundo) : nat :=
  length (List.filter es_peticion (traza w)).

(** Computations with effects and exceptions. *)
Definition M (A : Type) : Type := mundo -> resultado A * mundo.

#[global] Instance M_ret : MRet M := fun A a w => (Ok a, w).

#[global] Instance M_bind : MBind M := fun A B f m w =>
  match m w with
  | (Ok a, w') => f a w'
  | (Lanza e, w') => (Lanza e, w')
  end.

Definition lanzar {A} (e : excepcion) : M A := fun w => (Lanza e, w).

Definition registrar (e : evento) : M unit := fun w =>
  (Ok tt, Mundo (traza w ++ [e]) (archivos w) (bases w)).

Definition obtener_soup (red : red_t) (url : str) : M (option nodo) := fun w =>
  match red (num_peticiones w) url with
  | Some soup => (_ ← registrar (Peticion url); mret (Some soup)) w
  | None => (_ ← registrar (Peticion url); _ ← registrar (LogError url); mret None) w
  end.

(** The [for] loop of [scrapear_pagina]. *)
Fixpoint bucle_articulos (articulos : list nodo) (productos : list Producto)
  : M (list Producto) :=
  match articulos with
  | [] => mret productos
  | articulo :: r =>
      match procesar_articulo articulo with
      | Ok p => bucle_articulos r (productos ++ [p])
      | Lanza error => _ ← registrar (LogWarning error); bucle_articulos r productos
      end
  end.

Definition scrapear_pagina (red : red_t) (url : str) : M (list Producto) :=
  soup ← obtener_soup red url;
  match soup with
  | None => mret []
  | Some soup => bucle_articulos (select SEL_ARTICULO soup) []
  end.

(** ** The crawl *)

Definition URL_BASE : str := u "http://books.toscrape.com/".
Definition URL_INICIAL : str := URL_BASE ++ u "catalogue/page-1.html".

(** The body of the [while] loop: the new [url_actual] and the new
    [productos_totales]. *)
Definition iteracion (red : red_t) (url_actual : str) (productos_totales : list Producto)
  : M (option str * list Producto) :=
  _ ← registrar (LogInfoScrapeando url_actual);
  productos_pagina ← scrapear_pagina red url_actual;
  let productos_totales := productos_totales ++ productos_pagina in
  soup ← obtener_soup red url_actual;
  match soup with
  | Some soup =>
      match select_one_bajo SEL_LI_NEXT SEL_A soup with
      | Some a =>
          match atributos a !! u "href" with
          | Some siguiente_pagina =>
              _ ← registrar Dormir;
              mret (Some (URL_BASE ++ u "catalogue/" ++ siguiente_pagina),
                    productos_totales)
          | None => lanzar KeyError
          end
      | None => mret (None, productos_totales)
      end
  | None => mret (None, productos_totales)
  end.

(** [while url_actual:] an absent or empty cursor ends the loop. *)
Definition cursor_vivo (url_actual : option str) : option str :=
  match url_actual with
  | Some (c :: r) => Some (c :: r)
  | _ => None
  end.

(** The loop, for at most [pasos] iterations; [None] when they do not
    suffice. *)
Fixpoint bucle (red : red_t) (pasos : nat) (url_actual : option str)
  (productos_totales : list Producto) (w : mundo)
  : option (resultado (list Producto) * mundo) :=
  match cursor_vivo url_actual with
  | None => Some (Ok productos_totales, w)
  | Some url =>
      match pasos with
      | O => None
      | S pasos' =>
          match iteracion red url productos_totales w with
          | (Ok (url', productos'), w') => bucle red pasos' url' productos' w'
          | (Lanza e, w') => Some (Lanza e, w')
          end
      end
  end.

Definition obtener_todos_los_productos (red : red_t) (pasos : nat) (w : mundo)
  : option (resultado (list Producto) * mundo) :=
  bucle red pasos (Some URL_INICIAL) [] w.

(** ** Export *)

Definition CAMPOS : list str :=
  [u "titulo"; u "precio"; u "valoracion"; u "cantidad_stock"; u "texto_stock"].

Definition valor_opt (o : option Z) : valor :=
  match o with Some n => VInt n | None => VNone end.

Definition fila (p : Producto) : list valor :=
  [VStr (titulo p); VFloat (precio p); valor_opt (valoracion p);
   valor_opt (cantidad_stock p); VStr (texto_stock p)].

(** [open(nombre, "w")]: the file exists and is empty. *)
Definition abrir (nombre : str) : M unit := fun w =>
  (Ok tt, Mundo (traza w) (<[nombre := []]> (archivos w)) (bases w)).

Definition escribir (nombre : str) (es : list escrito) : M unit := fun w =>
  (Ok tt, Mundo (traza w)
            (<[nombre := default [] (archivos w !! nombre) ++ es]> (archivos w))
            (bases w)).

Definition guardar_csv (datos : list Producto) (nombre_archivo : str) : M unit :=
  _ ← abrir nombre_archivo;
  match datos with
  | [] => lanzar IndexError                        (* datos[0] *)
  | _ :: _ =>
      _ ← escribir nombre_archivo [FilaCSV (map VStr CAMPOS)];
      escribir nombre_archivo (map (fun p => FilaCSV (fila p)) datos)
  end.

Definition guardar_json (datos : list Producto) (nombre_archivo : str) : M unit :=
  _ ← abrir nombre_archivo;
  escribir nombre_archivo [DocJSON datos].

(** Rows get the identifiers that follow the largest one in the table. *)
Fixpoint insertar (siguiente : Z) (filas : list (list valor)) : list (Z * list valor) :=
  match filas with
  | [] => []
  | f :: r => (siguiente, f) :: insertar (siguiente + 1)%Z r
  end.

Definition ultimo_id (tabla : list (Z * list valor)) : Z :=
  fold_right (fun r m => Z.max (fst r) m) 0%Z tabla.

Definition guardar_sqlite (datos : list Producto) (nombre_bd : str) : M unit := fun w =>
  let tabla := default [] (bases w !! nombre_bd) in
  (Ok tt, Mundo (traza w) (archivos w)
            (<[nombre_bd := tabla ++ insertar (ultimo_id tabla + 1)%Z (map fila datos)]>
               (bases w))).

(** What the entry point does with the list the crawl returned. *)
Definition exportar (productos : list Producto) : M unit :=
  _ ← guardar_csv productos (u "productos.csv");
  _ ← guardar_json productos (u "productos.json");
  _ ← guardar_sqlite productos (u "productos.db");
  registrar (LogInfoCompletado (length productos)).

(** The entry point. *)
Definition principal (red : red_t) (pasos : nat) (w : mundo)
  : option (resultado unit * mundo) :=
  match obtener_todos_los_productos red pasos w with
  | None => None
  | Some (Ok productos, w') => Some (exportar productos w')
  | Some (Lanza e, w') => Some (Lanza e, w')
  end.

(** ** Vocabulary of the statements *)

(** Every character of [t] is a [p]; none is. *)
Definition todos (p : N -> bool) (t : str) : Prop := Forall (fun c => p c = true) t.
Definition ninguno (p : N -> bool) (t : str) : Prop := Forall (fun c => p c = false) t.

(** [t] does not go on with a [p]: it is empty or starts with another
    character. *)
Definition corta (p : N -> bool) (t : str) : Prop :=
  match t with c :: _ => p c = false | [] => True end.

(** The number a run of decimal digits, of any script, writes. *)
Definition entero (ds : str) : Z :=
  fold_left (fun acc c => (10 * acc + Z.of_N (default 0%N (valor_decimal c)))%Z) ds 0%Z.

(** The ASCII digit [transformar] puts for a digit of any script. *)
Definition ascii_de (c : N) : N := 48 + default 0 (valor_decimal c).

(** The five rating words, as the specification lists them. *)
Definition valor_de_palabra (m : str) : option Z :=
  if str_eqb m (u "One") then Some 1%Z
  else if str_eqb m (u "Two") then Some 2%Z
  else if str_eqb m (u "Three") then Some 3%Z
  else if str_eqb m (u "Four") then Some 4%Z
  else if str_eqb m (u "Five") then Some 5%Z
  else None.

(** The classes a tag carries; none for a tag without the attribute. *)
Definition clases_de (cls : option (list str)) : list str := default [] cls.




(** What one article adds to the list of a page, and to its log. *)
Definition producto_de (articulo : nodo) : list Producto :=
  match procesar_articulo articulo with Ok p => [p] | Lanza _ => [] end.

Definition aviso_de (articulo : nodo) : list evento :=
  match procesar_articulo articulo with Ok _ => [] | Lanza e => [LogWarning e] end.

Definition productos_de (soup : nodo) : list Producto :=
  flat_map producto_de (select SEL_ARTICULO soup).

Definition avisos_de (soup : nodo) : list evento :=
  flat_map aviso_de (select SEL_ARTICULO soup).

(** The world after the events [es]. *)
Definition anotar (es : list evento) (w : mundo) : mundo :=
  Mundo (traza w ++ es) (archivos w) (bases w).

(** The URLs requested so far, in order. *)
Definition peticiones (w : mundo) : list str :=
  flat_map (fun e => match e with Peticion url => [url] | _ => [] end) (traza w).

(** ** Sample documents *)

Definition articulo_ej (tit : option str) (texto_precio : option str)
  (estrellas : option str) (disponibilidad : option str) : nodo :=
  Etiqueta (u "article") (Some [u "product_pod"]) ∅
    (match estrellas with
     | Some e => [Etiqueta (u "p") (Some [u "star-rating"; e]) ∅ []]
     | None => []
     end ++
     [Etiqueta (u "h3") None ∅
        [Etiqueta (u "a") None
           (match tit with
            | Some t => {[ u "href" := u "x.html"; u "title" := t ]}
            | None => {[ u "href" := u "x.html" ]}
            end) [Texto (u "...")]];
      Etiqueta (u "div") (Some [u "product_price"]) ∅
        (match texto_precio with
         | Some p => [Etiqueta (u "p") (Some [u "price_color"]) ∅ [Texto p]]
         | None => []
         end ++
         match disponibilidad with
         | Some d => [Etiqueta (u "p") (Some [u "instock"; u "availability"]) ∅
                        [Texto (u "  " ++ d ++ u " ")]]
         | None => []
         end)]).

Definition pagina_ej (articulos : list nodo) (siguiente : option (option str)) : nodo :=
  Etiqueta (u "[document]") None ∅
    [Etiqueta (u "html") None ∅
       [Etiqueta (u "body") None ∅
          (articulos ++
           match siguiente with
           | Some href =>
               [Etiqueta (u "ul") (Some [u "pager"]) ∅
                  [Etiqueta (u "li") (Some [u "next"]) ∅
                     [Etiqueta (u "a") None
                        (match href with Some h => {[ u "href" := h ]} | None => ∅ end)
                        [Texto (u "next")]]]]
           | None => []
           end)]].

Definition art_A : nodo :=
  articulo_ej (Some (u "A")) (Some (LIBRA :: u "10.00")) (Some (u "Three"))
              (Some (u "In stock (5 available)")).
Definition art_B : nodo :=
  articulo_ej (Some (u "B")) (Some (LIBRA :: u "5.00")) None (Some (u "Out of stock")).
Definition art_C : nodo :=
  articulo_ej (Some (u "C")) (Some (LIBRA :: u "1.50")) (Some (u "Five"))
              (Some (u "In stock (1 available)")).

(** An article whose anchor has an empty title. *)
Definition art_sin_titulo : nodo :=
  articulo_ej (Some []) (Some (LIBRA :: u "10.00")) None (Some (u "In stock")).

(** An article whose price text has a minus sign. *)
Definition art_precio_negativo : nodo :=
  articulo_ej (Some (u "N")) (Some (LIBRA :: u "-5.00")) None (Some (u "In stock")).

(** An article whose price text is not a number. *)
Definition art_precio_malo : nodo :=
  articulo_ej (Some (u "M")) (Some (LIBRA :: u "abc")) None (Some (u "In stock")).

Definition URL_PAGINA_2 : str := URL_BASE ++ u "catalogue/page-2.html".

Definition pagina_1 : nodo := pagina_ej [art_A; art_B] (Some (Some (u "page-2.html"))).
Definition pagina_2 : nodo := pagina_ej [art_C] None.

(** A site of two pages that always answers. *)
Definition sitio (url : str) : option nodo :=
  if str_eqb url URL_INICIAL then Some pagina_1
  else if str_eqb url URL_PAGINA_2 then Some pagina_2
  else None.

Definition red_estable : red_t := fun _ url => sitio url.

(** The same site, whose first answer is lost. *)
Definition red_inestable : red_t := fun n url =>
  match n with O => None | S _ => sitio url end.

(** The same site, of which the second page never answers. *)
Definition red_cortada : red_t := fun _ url =>
  if str_eqb url URL_INICIAL then Some pagina_1 else None.

(** A network that never answers. *)
Definition red_muerta : red_t := fun _ _ => None.

(** One page, with a given list of articles and no link. *)
Definition red_de (soup : nodo) : red_t := fun _ _ => Some soup.

Definition pagina_titulo_vacio : nodo := pagina_ej [art_sin_titulo] None.
Definition pagina_precio_negativo : nodo := pagina_ej [art_precio_negativo] None.
Definition pagina_un_fallo : nodo := pagina_ej [art_A; art_precio_malo; art_B] None.

(** The records of the sample articles. *)
Definition producto_A : Producto :=
  {| titulo := u "A"; precio := Finito false 1000 (-2); valoracion := Some 3%Z;
     cantidad_stock := Some 5%Z; texto_stock := u "In stock (5 available)" |}.
Definition producto_B : Producto :=
  {| titulo := u "B"; precio := Finito false 500 (-2); valoracion := None;
     cantidad_stock := None; texto_stock := u "Out of stock" |}.
Definition producto_C : Producto :=
  {| titulo := u "C"; precio := Finito false 150 (-2); valoracion := Some 5%Z;
     cantidad_stock := Some 1%Z; texto_stock := u "In stock (1 available)" |}.

(** ** Vocabulary of the crawl *)

(** [soup.select_one("li.next a")] *)
Definition enlace_siguiente (soup : nodo) : option nodo :=
  select_one_bajo SEL_LI_NEXT SEL_A soup.

(** Where the answer to the second request of an iteration leads: nowhere,
    to a next URL, or to the [KeyError] of an anchor without [href]. *)
Inductive destino : Type :=
| Fin
| Sigue (url : str)
| SinHref.

Definition destino_de (respuesta : option nodo) : destino :=
  match respuesta with
  | None => Fin
  | Some soup =>
      match enlace_siguiente soup with
      | None => Fin
      | Some a =>
          match atributos a !! u "href" with
          | Some h => Sigue (URL_BASE ++ u "catalogue/" ++ h)
          | None => SinHref
          end
      end
  end.

(** The records the answer to the first request of an iteration gives. *)
Definition productos_opt (respuesta : option nodo) : list Producto :=
  match respuesta with Some soup => productos_de soup | None => [] end.

Definition eventos_extraccion (url : str) (respuesta : option nodo) : list evento :=
  match respuesta with
  | Some soup => Peticion url :: avisos_de soup
  | None => [Peticion url; LogError url]
  end.

Definition eventos_enlace (url : str) (respuesta : option nodo) : list evento :=
  match respuesta with
  | None => [Peticion url; LogError url]
  | Some _ =>
      match destino_de respuesta with
      | Sigue _ => [Peticion url; Dormir]
      | _ => [Peticion url]
      end
  end.

Definition eventos_iteracion (url : str) (r1 r2 : option nodo) : list evento :=
  LogInfoScrapeando url :: eventos_extraccion url r1 ++ eventos_enlace url r2.

(** One page of a crawl: its URL, what the request of the extraction got
    and the document the request of the link lookup got. *)
Record visita : Type := Visita {
  v_url : str;
  v_extraccion : option nodo;
  v_enlace : nodo
}.

(** Starting at request number [n] with the cursor on [url], the network
    serves the pages [vs] one after the other, each with a next link that
    leads to the following one, and the last to [fin]. *)
Fixpoint recorrido (red : red_t) (n : nat) (url : str) (vs : list visita) (fin : str)
  : Prop :=
  match vs with
  | [] => url = fin
  | v :: r =>
      v_url v = url /\
      red n url = v_extraccion v /\
      red (S n) url = Some (v_enlace v) /\
      exists url', destino_de (Some (v_enlace v)) = Sigue url' /\
                   recorrido red (n + 2) url' r fin
  end.

(** The network answers by the URL alone. *)
Definition determinista (red : red_t) : Prop :=
  forall n m url, red n url = red m url.

(** The crawl driver as the specification words it: one fetch for each
    page; a failed fetch gives no record and ends the crawl; the records of
    the page are appended; the next link, if there is one, gives the next
    cursor, and the crawl ends if there is none. *)
Fixpoint crawlAll_spec (fetch : str -> option nodo) (pasos : nat)
  (cursor : option str) (acumulado : list Producto)
  : option (resultado (list Producto)) :=
  match cursor with
  | None => Some (Ok acumulado)
  | Some url =>
      match pasos with
      | O => None
      | S pasos' =>
          match fetch url with
          | None => Some (Ok acumulado)
          | Some doc =>
              let acumulado' := acumulado ++ productos_de doc in
              match enlace_siguiente doc with
              | None => Some (Ok acumulado')
              | Some a =>
                  match atributos a !! u "href" with
                  | Some h =>
                      crawlAll_spec fetch pasos'
                        (Some (URL_BASE ++ u "catalogue/" ++ h)) acumulado'
                  | None => Some (Lanza KeyError)
                  end
              end
          end
      end
  end.

(** Each URL twice. *)
Definition dos_veces (urls : list str) : list str :=
  flat_map (fun url => [url; url]) urls.

(** ** Vocabulary of the further properties *)





Definition es_dormir (e : evento) : bool :=
  match e with Dormir => true | _ => false end.

Definition es_info_scrapeando (e : evento) : bool :=
  match e with LogInfoScrapeando _ => true | _ => false end.

(** How many events of a kind the trace holds. *)
Definition cuenta (f : evento -> bool) (w : mundo) : nat :=
  length (List.filter f (traza w)).

(** The path every page of the catalogue is under. *)
Definition PREFIJO : str := URL_BASE ++ u "catalogue/".

Definition en_catalogo (url : str) : Prop := exists resto, url = PREFIJO ++ resto.

(** The runs of the [while] loop, as a relation: from a cursor, a list and
    a world to the outcome. *)
Inductive corre (red : red_t)
  : option str -> list Producto -> mundo -> resultado (list Producto) * mundo -> Prop :=
| corre_fin url tot w :
    cursor_vivo url = None -> corre red url tot w (Ok tot, w)
| corre_paso url url_actual tot w url' tot' w' r :
    cursor_vivo url = Some url_actual ->
    iteracion red url_actual tot w = (Ok (url', tot'), w') ->
    corre red url' tot' w' r ->
    corre red url tot w r
| corre_lanza url url_actual tot w e w' :
    cursor_vivo url = Some url_actual ->
    iteracion red url_actual tot w = (Lanza e, w') ->
    corre red url tot w (Lanza e, w').

(** A page whose next anchor has no [href], and a page that links to the
    first page. *)
Definition pagina_sin_href : nodo := pagina_ej [art_A] (Some None).
Definition pagina_en_ciclo : nodo := pagina_ej [art_A] (Some (Some (u "page-1.html"))).

(** The world the crawl of the two-page site ends in. *)
Definition mundo_estable : mundo :=
  match obtener_todos_los_productos red_estable 3 mundo_inicial with
  | Some (_, w) => w
  | None => mundo_inicial
  end.

(** The two-page site, whose second page has a next anchor without
    [href]. *)
Definition red_sin_href : red_t := fun _ url =>
  if str_eqb url URL_INICIAL then Some pagina_1
  else if str_eqb url URL_PAGINA_2 then Some pagina_sin_href
  else None.

(** A site every page of which links to the first page. *)
Definition red_en_ciclo : red_t := fun _ _ => Some pagina_en_ciclo.


(** * Properties *)

Ltac a_prop :=
  repeat match goal with
  | H : _ && _ = true |- _ => apply andb_true_iff in H; destruct H
  | H : _ || _ = false |- _ => apply orb_false_iff in H; destruct H
  | H : negb _ = true |- _ => apply negb_true_iff in H
  | H : negb _ = false |- _ => apply negb_false_iff in H
  | H : (_ <=? _) = true |- _ => apply N.leb_le in H
  | H : (_ <=? _) = false |- _ => apply N.leb_gt in H
  | H : (_ <? _) = true |- _ => apply N.ltb_lt in H
  | H : (_ <? _) = false |- _ => apply N.ltb_ge in H
  | H : (_ =? _) = true |- _ => apply N.eqb_eq in H
  | H : (_ =? _) = false |- _ => apply N.eqb_neq in H
  end.

Section Texto.

Variable p : N -> bool.





Lemma saltar_mientras_corta l : corta p l -> saltar_mientras p l = l.
Proof. destruct l as [|c r]; simpl; intros H; [reflexivity | now rewrite H]. Qed.

Lemma tomar_saltar l : tomar_mientras p l ++ saltar_mientras p l = l.
Proof. induction l as [|c r IH]; simpl; [reflexivity|]. destruct (p c); simpl; congruence. Qed.

Lemma tomar_mientras_es_todos l : todos p (tomar_mientras p l).
Proof.
  induction l as [|c r IH]; simpl; [constructor|].
  destruct (p c) eqn:E; constructor; auto.
Qed.

Lemma saltar_mientras_es_corta l : corta p (saltar_mientras p l).
Proof.
  induction l as [|c r IH]; simpl; [exact I|].
  destruct (p c) eqn:E; simpl; auto.
Qed.

End Texto.

Lemma valor_decimal_Some c d :
  valor_decimal c = Some d ->
  exists z, In z CEROS_DECIMALES /\ z <= c /\ c < z + 10 /\ d = c - z.
Proof.
  unfold valor_decimal. destruct (List.find _ _) as [z|] eqn:E; [|discriminate].
  intros [= <-]. apply find_some in E as [Hin Hd]. unfold en_decena in Hd.
  a_prop. eauto.
Qed.

Lemma valor_decimal_lt c d : valor_decimal c = Some d -> d < 10.
Proof. intros (z & _ & ? & ? & ->)%valor_decimal_Some. lia. Qed.

Lemma ceros_ascii z : In z CEROS_DECIMALES -> z = 48 \/ 1632 <= z.
Proof.
  assert (H : forallb (fun z => (z =? 48) || (1632 <=? z)) CEROS_DECIMALES = true)
    by (vm_compute; reflexivity).
  rewrite forallb_forall in H. intros Hin. specialize (H _ Hin).
  apply orb_true_iff in H as [H|H]; a_prop; auto.
Qed.

Lemma valor_decimal_ascii c d :
  valor_decimal c = Some d -> c < 127 -> c = 48 + d /\ es_digito_ascii c = true.
Proof.
  intros (z & Hin & ? & ? & ->)%valor_decimal_Some Hc.
  destruct (ceros_ascii _ Hin) as [-> | ?]; [|lia].
  unfold es_digito_ascii. split; [lia|].
  apply andb_true_iff; split; [apply N.leb_le | apply N.leb_le]; lia.
Qed.

Lemma digito_no_espacio c : es_digito c = true -> es_espacio c = false.
Proof.
  unfold es_digito. destruct (valor_decimal c) as [d|] eqn:E; [|discriminate].
  intros _. apply valor_decimal_Some in E as (z & Hin & H1 & H2 & _).
  assert (H : forallb (fun z => forallb (fun i => negb (es_espacio (z + i)))
                                  [0;1;2;3;4;5;6;7;8;9]) CEROS_DECIMALES = true)
    by (vm_compute; reflexivity).
  rewrite forallb_forall in H. specialize (H _ Hin).
  rewrite forallb_forall in H. specialize (H (c - z)).
  replace (z + (c - z)) with c in H by lia.
  apply negb_true_iff, H. simpl.
  assert (Hi : c - z < 10) by lia. revert Hi. generalize (c - z). intros i Hi.
  lia.
Qed.

(** ** Reading integers *)

Lemma es_digito_valor c : es_digito c = true -> exists d, valor_decimal c = Some d.
Proof. unfold es_digito. destruct (valor_decimal c); [eauto | discriminate]. Qed.

Lemma ascii_de_digito c : es_digito c = true -> es_digito_ascii (ascii_de c) = true.
Proof.
  intros [d Hd]%es_digito_valor. unfold ascii_de, es_digito_ascii. rewrite Hd.
  cbn [from_option id]. apply valor_decimal_lt in Hd.
  apply andb_true_iff; split; apply N.leb_le; lia.
Qed.

Lemma transformar_digitos run :
  todos es_digito run -> transformar run = map ascii_de run.
Proof.
  induction 1 as [|c r Hc Hr IH]; cbn [transformar map]; [reflexivity|].
  destruct (es_digito_valor _ Hc) as [d Hd].
  assert (Ha : ascii_de c = 48 + d) by (unfold ascii_de; now rewrite Hd).
  rewrite IH, Ha. destruct (c <? 127) eqn:E.
  - apply N.ltb_lt in E. f_equal. apply (valor_decimal_ascii _ _ Hd E).
  - now rewrite (digito_no_espacio _ Hc), Hd.
Qed.

Lemma digito_ascii_no_espacio c : es_digito_ascii c = true -> es_espacio_ascii c = false.
Proof.
  unfold es_digito_ascii, es_espacio_ascii. intros H. a_prop.
  apply orb_false_iff; split; [apply andb_false_iff; right; apply N.leb_gt; lia|].
  apply N.eqb_neq; lia.
Qed.

Lemma strip_ascii_digitos l : todos es_digito_ascii l -> strip_ascii l = l.
Proof.
  intros H. unfold strip_ascii.
  assert (Hc : forall l', todos es_digito_ascii l' -> corta es_espacio_ascii l').
  { intros [|c r] Hl; simpl; [exact I|]. inversion Hl; subst.
    now apply digito_ascii_no_espacio. }
  rewrite (saltar_mientras_corta _ l) by auto.
  rewrite saltar_mientras_corta; [apply rev_involutive|].
  apply Hc. unfold todos. apply Forall_rev, H.
Qed.

Lemma leer_signo_otro c r : c <> 45 -> c <> 43 -> leer_signo (c :: r) = (false, c :: r).
Proof.
  intros H1 H2. unfold leer_signo.
  now rewrite (proj2 (N.eqb_neq _ _) H1), (proj2 (N.eqb_neq _ _) H2).
Qed.

Lemma leer_signo_digito c r :
  es_digito_ascii c = true -> leer_signo (c :: r) = (false, c :: r).
Proof.
  unfold es_digito_ascii. intros H. a_prop. apply leer_signo_otro; lia.
Qed.

Lemma digitos_con_guiones_todos prev l :
  todos es_digito_ascii l -> prev <> 95 -> digitos_con_guiones prev l = Some l.
Proof.
  intros H. revert prev. induction H as [|c r Hc Hr IH]; intros prev Hp; simpl.
  - apply N.eqb_neq in Hp. now rewrite Hp.
  - assert (Hn : c <> 95) by (unfold es_digito_ascii in Hc; a_prop; lia).
    rewrite (proj2 (N.eqb_neq _ _) Hn), Hc, IH by assumption. reflexivity.
Qed.

Lemma entero_ascii_de run acc :
  fold_left (fun a c => (10 * a + Z.of_N (c - 48))%Z) (map ascii_de run) acc =
  fold_left (fun a c => (10 * a + Z.of_N (default 0%N (valor_decimal c)))%Z) run acc.
Proof.
  revert acc. induction run as [|c r IH]; intros acc; simpl; [reflexivity|].
  rewrite IH. do 3 f_equal. unfold ascii_de. lia.
Qed.

Lemma int_py_digitos run :
  run <> [] -> todos es_digito run -> int_py run = Ok (entero run).
Proof.
  intros Hne Hd. unfold int_py. rewrite (transformar_digitos _ Hd).
  assert (Ha : todos es_digito_ascii (map ascii_de run)).
  { clear Hne. induction Hd as [|c r Hc Hr IH]; constructor; auto.
    now apply ascii_de_digito. }
  rewrite (strip_ascii_digitos _ Ha).
  destruct run as [|c r]; [congruence|]. simpl map in *.
  inversion Ha; subst. rewrite leer_signo_digito by assumption.
  rewrite digitos_con_guiones_todos by (assumption || discriminate).
  f_equal. apply (entero_ascii_de (c :: r)).
Qed.

(** ** parsear_stock *)



Lemma buscar_digitos_Some t g :
  buscar_digitos t = Some g ->
  exists pre post, t = pre ++ g ++ post /\ ninguno es_digito pre /\ g <> [] /\
                   todos es_digito g /\ corta es_digito post.
Proof.
  induction t as [|c r IH]; simpl; [discriminate|].
  destruct (es_digito c) eqn:E.
  - intros [= <-]. exists [], (saltar_mientras es_digito r). simpl.
    rewrite tomar_saltar. repeat split; try discriminate.
    + constructor.
    + constructor; [assumption | apply tomar_mientras_es_todos].
    + apply saltar_mientras_es_corta.
  - intros (pre & post & -> & Hpre & Hne & Hg & Hpost)%IH.
    exists (c :: pre), post. repeat split; auto. now constructor.
Qed.

Lemma parsear_stock_Ok t : exists r, parsear_stock t = Ok r.
Proof.
  unfold parsear_stock. destruct (buscar_digitos t) as [g|] eqn:E; [|eauto].
  apply buscar_digitos_Some in E as (_ & _ & _ & _ & Hne & Hg & _).
  rewrite int_py_digitos by assumption. simpl. eauto.
Qed.



(** ** parsear_valoracion *)

Lemma MAPA_VALORACIONES_lookup m : MAPA_VALORACIONES !! m = valor_de_palabra m.
Proof.
  unfold MAPA_VALORACIONES, valor_de_palabra, str_eqb. cbn [list_to_map foldr uncurry fst snd].
  repeat (case_bool_decide;
          [subst m; vm_compute; reflexivity
          | rewrite lookup_insert_ne by congruence]).
  apply lookup_empty.
Qed.

Lemma valor_de_palabra_rango m v : valor_de_palabra m = Some v -> (1 <= v <= 5)%Z.
Proof.
  unfold valor_de_palabra.
  repeat (destruct (str_eqb m _); [intros [= <-]; lia|]). discriminate.
Qed.

Lemma primera_valoracion_app l1 m l2 v :
  Forall (fun x => valor_de_palabra x = None) l1 -> valor_de_palabra m = Some v ->
  primera_valoracion (l1 ++ m :: l2) = Some v.
Proof.
  intros H Hm. induction H as [|x r Hx Hr IH]; simpl.
  - now rewrite MAPA_VALORACIONES_lookup, Hm.
  - now rewrite MAPA_VALORACIONES_lookup, Hx.
Qed.

Lemma primera_valoracion_None l :
  Forall (fun x => valor_de_palabra x = None) l -> primera_valoracion l = None.
Proof.
  induction 1 as [|x r Hx Hr IH]; simpl; [reflexivity|].
  now rewrite MAPA_VALORACIONES_lookup, Hx.
Qed.

Lemma parsear_valoracion_Ok e : exists r, parsear_valoracion e = Ok r.
Proof. destruct e as [[t|nom cls at_ hs]|]; simpl; eauto. Qed.

(** C9.  [parsear_valoracion] never raises.  On a tag it returns the number
    of the first class, in the order of the class list, that is one of the
    words One, Two, Three, Four, Five spelt exactly so, a number from 1 to
    5; it returns [None] when no class is such a word, when the tag has no
    class attribute, and when it is given no tag at all. *)
Theorem parsear_valoracion_primera_palabra :
  (forall e, exists r, parsear_valoracion e = Ok r) /\
  (forall nom cls at_ hs l1 m l2 v,
     clases_de cls = l1 ++ m :: l2 ->
     Forall (fun x => valor_de_palabra x = None) l1 ->
     valor_de_palabra m = Some v ->
     parsear_valoracion (Some (Etiqueta nom cls at_ hs)) = Ok (Some v) /\
     (1 <= v <= 5)%Z) /\
  (forall nom cls at_ hs,
     Forall (fun x => valor_de_palabra x = None) (clases_de cls) ->
     parsear_valoracion (Some (Etiqueta nom cls at_ hs)) = Ok None) /\
  parsear_valoracion None = Ok None /\
  (forall t, parsear_valoracion (Some (Texto t)) = Ok None) /\
  valor_de_palabra (u "three") = None.
Proof.
  split; [|split; [|split; [|split; [|split]]]].
  - apply parsear_valoracion_Ok.
  - intros nom cls at_ hs l1 m l2 v Hc Hl Hm. split.
    + change (parsear_valoracion (Some (Etiqueta nom cls at_ hs)))
        with (Ok (A := option Z) (primera_valoracion (clases_de cls))).
      rewrite Hc. f_equal. now apply primera_valoracion_app.
    + eapply valor_de_palabra_rango; eassumption.
  - intros nom cls at_ hs H.
    change (parsear_valoracion (Some (Etiqueta nom cls at_ hs)))
      with (Ok (A := option Z) (primera_valoracion (clases_de cls))).
    f_equal. now apply primera_valoracion_None.
  - reflexivity.
  - reflexivity.
  - reflexivity.
Qed.

Lemma parsear_valoracion_primera_palabra_witness :
  clases_de (Some [u "star-rating"; u "Three"; u "Five"]) =
    [u "star-rating"] ++ u "Three" :: [u "Five"] /\
  Forall (fun x => valor_de_palabra x = None) [u "star-rating"] /\
  valor_de_palabra (u "Three") = Some 3%Z /\
  parsear_valoracion
    (Some (Etiqueta (u "p") (Some [u "star-rating"; u "Three"; u "Five"]) ∅ [])) = Ok (Some 3%Z).
Proof.
  assert (H1 : clases_de (Some [u "star-rating"; u "Three"; u "Five"]) =
               [u "star-rating"] ++ u "Three" :: [u "Five"]) by reflexivity.
  assert (H2 : Forall (fun x => valor_de_palabra x = None) [u "star-rating"])
    by (repeat constructor).
  assert (H3 : valor_de_palabra (u "Three") = Some 3%Z) by reflexivity.
  refine (conj H1 (conj H2 (conj H3 _))).
  exact (proj1 (proj1 (proj2 parsear_valoracion_primera_palabra)
                  (u "p") _ ∅ [] _ _ _ _ H1 H2 H3)).
Defined.

(** ** Reading floats *)





















(** *** White space around the price *)








(** *** A text that cannot start a number *)









(** ** The sign of a price *)

Lemma In_saltar_mientras p x l : In x (saltar_mientras p l) -> In x l.
Proof.
  induction l as [|c r IH]; cbn [saltar_mientras]; [auto|].
  destruct (p c); [right; auto | auto].
Qed.

Lemma In_strip_ascii x l : In x (strip_ascii l) -> In x l.
Proof.
  unfold strip_ascii.
  intros H%in_rev%In_saltar_mientras%in_rev%In_saltar_mientras. exact H.
Qed.

Lemma In_strip x l : In x (strip l) -> In x l.
Proof.
  unfold strip.
  intros H%in_rev%In_saltar_mientras%in_rev%In_saltar_mientras. exact H.
Qed.

Lemma In_quitar c x l : In x (quitar c l) -> In x l.
Proof. unfold quitar. intros H%filter_In. tauto. Qed.

Lemma In_menos_transformar l : In 45 (transformar l) -> In 45 l.
Proof.
  induction l as [|c r IH]; cbn [transformar]; [auto|].
  destruct (c <? 127).
  - intros [H|H]; [left; exact H | right; auto].
  - destruct (es_espacio c).
    + intros [H|H]; [discriminate | right; auto].
    + destruct (valor_decimal c) as [d|] eqn:E.
      * intros [H|H]; [|right; auto]. apply valor_decimal_lt in E. lia.
      * intros [H|[]]. discriminate.
Qed.

Lemma In_sin_guiones x prev s s' : sin_guiones prev s = Some s' -> In x s' -> In x s.
Proof.
  revert prev s'. induction s as [|c r IH]; intros prev s'; cbn [sin_guiones].
  - destruct (prev =? 95); [discriminate|]. now intros [= <-].
  - destruct (c =? 95).
    + destruct (es_digito_ascii prev); [|discriminate].
      intros H Hx. right. eapply IH; eassumption.
    + destruct ((prev =? 95) && negb (es_digito_ascii c)); [discriminate|].
      destruct (sin_guiones c r) as [s''|] eqn:E; [|discriminate].
      intros [= <-] [Hx|Hx]; [left; exact Hx | right; eapply IH; eauto].
Qed.

Lemma leer_signo_menos s r : leer_signo s = (true, r) -> In 45 s.
Proof.
  unfold leer_signo. destruct s as [|c s']; [discriminate|].
  destruct (c =? 45) eqn:E; [apply N.eqb_eq in E; subst; now left|].
  destruct (c =? 43); discriminate.
Qed.

Lemma leer_numero_Finito neg r f :
  leer_numero neg r = Ok f -> exists m e, f = Finito neg m e.
Proof.
  unfold leer_numero. repeat (case_match; try discriminate); intros [= <-]; eauto.
Qed.

Lemma float_py_sin_menos t f :
  float_py t = Ok f -> ~ In 45 t -> f = NaN \/ no_negativo f = true.
Proof.
  unfold float_py. intros H Hn.
  destruct (sin_guiones 0 (strip_ascii (transformar t))) as [s|] eqn:Es; [|discriminate].
  destruct (leer_signo s) as [neg r] eqn:El.
  assert (Hneg : neg = false).
  { destruct neg; [|reflexivity]. exfalso. apply Hn.
    apply In_menos_transformar, In_strip_ascii.
    eapply In_sin_guiones; [exact Es|]. eapply leer_signo_menos; eassumption. }
  subst neg. revert H. repeat case_match; try (intros [= <-]; auto; fail).
  intros (m & e & ->)%leer_numero_Finito. right. reflexivity.
Qed.

Lemma parsear_precio_sin_menos t f :
  parsear_precio t = Ok f -> ~ In 45 t -> f = NaN \/ no_negativo f = true.
Proof.
  unfold parsear_precio. intros H Hn. eapply float_py_sin_menos; [exact H|].
  intros Hi%In_strip%In_quitar. contradiction.
Qed.

(** ** The loop over the articles of a page *)

Lemma anotar_nil w : anotar [] w = w.
Proof. destruct w. unfold anotar. cbn. now rewrite app_nil_r. Qed.

Lemma anotar_anotar a b w : anotar b (anotar a w) = anotar (a ++ b) w.
Proof. unfold anotar. cbn. now rewrite app_assoc. Qed.

Lemma bucle_articulos_anotar articulos productos w :
  bucle_articulos articulos productos w =
  (Ok (productos ++ flat_map producto_de articulos),
   anotar (flat_map aviso_de articulos) w).
Proof.
  revert productos w. induction articulos as [|a r IH]; intros productos w.
  - cbn. now rewrite app_nil_r, anotar_nil.
  - cbn [bucle_articulos flat_map]. unfold producto_de at 1, aviso_de at 1.
    destruct (procesar_articulo a) as [p|e].
    + rewrite IH, <- app_assoc. reflexivity.
    + unfold mbind, M_bind, registrar. rewrite IH.
      change (Mundo (traza w ++ [LogWarning e]) (archivos w) (bases w))
        with (anotar [LogWarning e] w).
      now rewrite anotar_anotar.
Qed.

Lemma num_peticiones_anotar es w :
  num_peticiones (anotar es w) = (num_peticiones w + length (List.filter es_peticion es))%nat.
Proof. unfold num_peticiones, anotar. cbn. now rewrite List.filter_app, length_app. Qed.

Lemma avisos_sin_peticion articulos :
  List.filter es_peticion (flat_map aviso_de articulos) = [].
Proof.
  induction articulos as [|a r IH]; [reflexivity|]. cbn [flat_map].
  rewrite List.filter_app, IH. unfold aviso_de. now destruct (procesar_articulo a).
Qed.

Lemma scrapear_pagina_anotar red url w :
  scrapear_pagina red url w =
  match red (num_peticiones w) url with
  | Some soup => (Ok (productos_de soup), anotar (Peticion url :: avisos_de soup) w)
  | None => (Ok [], anotar [Peticion url; LogError url] w)
  end.
Proof.
  unfold scrapear_pagina, obtener_soup, mbind, M_bind.
  destruct (red (num_peticiones w) url) as [soup|].
  - unfold registrar, mret, M_ret. rewrite bucle_articulos_anotar.
    change (Mundo (traza w ++ [Peticion url]) (archivos w) (bases w))
      with (anotar [Peticion url] w).
    now rewrite anotar_anotar.
  - unfold registrar, mret, M_ret, anotar. cbn. now rewrite <- app_assoc.
Qed.

Lemma In_productos_de soup p :
  In p (productos_de soup) <->
  exists articulo, In articulo (select SEL_ARTICULO soup) /\ procesar_articulo articulo = Ok p.
Proof.
  unfold productos_de. rewrite in_flat_map. split.
  - intros (a & Ha & Hp). exists a. split; [exact Ha|]. unfold producto_de in Hp.
    destruct (procesar_articulo a); [|destruct Hp]. destruct Hp as [->|[]]. reflexivity.
  - intros (a & Ha & Hp). exists a. split; [exact Ha|]. unfold producto_de.
    rewrite Hp. now left.
Qed.

Lemma procesar_articulo_Ok articulo p :
  procesar_articulo articulo = Ok p ->
  extraer_titulo articulo = Ok (titulo p) /\
  (exists t, texto_de SEL_PRECIO articulo = Ok t /\ parsear_precio t = Ok (precio p)) /\
  parsear_valoracion (select_one SEL_VALORACION articulo) = Ok (valoracion p) /\
  (exists t, texto_de SEL_STOCK articulo = Ok t /\ texto_stock p = strip t /\
             parsear_stock (strip t) = Ok (cantidad_stock p)).
Proof.
  unfold procesar_articulo, mbind, resultado_bind.
  destruct (extraer_titulo articulo) as [tit|]; [|discriminate].
  destruct (texto_de SEL_PRECIO articulo) as [tp|]; [|discriminate].
  destruct (parsear_precio tp) as [f|] eqn:Ef; [|discriminate].
  destruct (parsear_valoracion _) as [v|]; [|discriminate].
  destruct (texto_de SEL_STOCK articulo) as [ts|]; [|discriminate].
  destruct (parsear_stock (strip ts)) as [c|] eqn:Ec; [|discriminate].
  intros [= <-]. cbn.
  split; [reflexivity|]. split; [exists tp; auto|]. split; [reflexivity|].
  exists ts; auto.
Qed.

(** The steps of an article that can fail: the title, the price element,
    the price text, the availability element. *)
Lemma procesar_articulo_falla articulo :
  (exists e, procesar_articulo articulo = Lanza e) <->
  (exists e, extraer_titulo articulo = Lanza e) \/
  (exists e, texto_de SEL_PRECIO articulo = Lanza e) \/
  (exists t e, texto_de SEL_PRECIO articulo = Ok t /\ parsear_precio t = Lanza e) \/
  (exists e, texto_de SEL_STOCK articulo = Lanza e).
Proof.
  unfold procesar_articulo, mbind, resultado_bind.
  destruct (extraer_titulo articulo) as [tit|e1];
    [|split; [eauto | intros _; eauto]].
  destruct (texto_de SEL_PRECIO articulo) as [tp|e2];
    [|split; [eauto | intros _; eauto]].
  destruct (parsear_precio tp) as [f|e3] eqn:Ef; [|split; [eauto 10 | intros _; eauto]].
  destruct (parsear_valoracion_Ok (select_one SEL_VALORACION articulo)) as [v ->].
  destruct (texto_de SEL_STOCK articulo) as [ts|e4];
    [|split; [eauto 10 | intros _; eauto]].
  destruct (parsear_stock_Ok (strip ts)) as [c ->].
  split.
  - intros [e He]. discriminate.
  - intros [[e He]|[[e He]|[(t & e & Ht & He)|[e He]]]]; try discriminate.
    injection Ht as <-. congruence.
Qed.

Lemma scrapear_pagina_In red url w ps w' p :
  scrapear_pagina red url w = (Ok ps, w') -> In p ps ->
  exists soup articulo,
    red (num_peticiones w) url = Some soup /\
    In articulo (select SEL_ARTICULO soup) /\ procesar_articulo articulo = Ok p.
Proof.
  rewrite scrapear_pagina_anotar.
  destruct (red (num_peticiones w) url) as [soup|]; intros [= <- _] Hp; [|destruct Hp].
  apply In_productos_de in Hp as (a & Ha & Hp). eauto.
Qed.

(** C3, amended.  The title of every record that page extraction emits is
    the value of the [title] attribute of the first anchor in the first
    [h3] of its article, and that value may be the empty text.  An article
    with no [h3], no anchor in it or no [title] on it gives no record and
    one warning. *)
Theorem scrapear_pagina_titulo_del_atributo :
  (forall red url w ps w' p,
     scrapear_pagina red url w = (Ok ps, w') -> In p ps ->
     exists soup articulo h3 a,
       red (num_peticiones w) url = Some soup /\
       In articulo (select SEL_ARTICULO soup) /\
       find_etiqueta (u "h3") articulo = Some h3 /\
       find_etiqueta (u "a") h3 = Some a /\
       atributos a !! u "title" = Some (titulo p)) /\
  (forall articulo e,
     extraer_titulo articulo = Lanza e ->
     producto_de articulo = [] /\ aviso_de articulo = [LogWarning e]).
Proof.
  split.
  - intros red url w ps w' p Hs Hp.
    destruct (scrapear_pagina_In _ _ _ _ _ _ Hs Hp) as (soup & a & Hr & Ha & Hok).
    apply procesar_articulo_Ok in Hok as (Ht & _). unfold extraer_titulo in Ht.
    destruct (find_etiqueta (u "h3") a) as [h3|] eqn:E1; [|discriminate].
    destruct (find_etiqueta (u "a") h3) as [an|] eqn:E2; [|discriminate].
    destruct (atributos an !! u "title") as [t|] eqn:E3; [|discriminate].
    injection Ht as <-. exists soup, a, h3, an. auto.
  - intros articulo e He. unfold producto_de, aviso_de, procesar_articulo.
    rewrite He. split; reflexivity.
Qed.

Lemma scrapear_pagina_titulo_del_atributo_witness :
  scrapear_pagina (red_de pagina_2) URL_PAGINA_2 mundo_inicial =
    (Ok [producto_C], anotar [Peticion URL_PAGINA_2] mundo_inicial) /\
  In producto_C [producto_C] /\
  exists soup articulo h3 a,
    red_de pagina_2 (num_peticiones mundo_inicial) URL_PAGINA_2 = Some soup /\
    In articulo (select SEL_ARTICULO soup) /\
    find_etiqueta (u "h3") articulo = Some h3 /\
    find_etiqueta (u "a") h3 = Some a /\
    atributos a !! u "title" = Some (titulo producto_C).
Proof.
  assert (H1 : scrapear_pagina (red_de pagina_2) URL_PAGINA_2 mundo_inicial =
               (Ok [producto_C], anotar [Peticion URL_PAGINA_2] mundo_inicial))
    by (vm_compute; reflexivity).
  assert (H2 : In producto_C [producto_C]) by (left; reflexivity).
  refine (conj H1 (conj H2 _)).
  exact (proj1 scrapear_pagina_titulo_del_atributo _ _ _ _ _ _ H1 H2).
Defined.

(** C3 as stated fails: the anchor of this article has an empty [title],
    and the article gives a record whose title is the empty text. *)
Lemma scrapear_pagina_titulo_vacio_contraejemplo :
  (scrapear_pagina (red_de pagina_titulo_vacio) URL_INICIAL mundo_inicial).1 =
  Ok [{| titulo := []; precio := Finito false 1000 (-2); valoracion := None;
         cantidad_stock := None; texto_stock := u "In stock" |}].
Proof. vm_compute. reflexivity. Qed.

(** C4, amended.  The price of every record that page extraction emits is
    what [parsear_precio] reads in the text of the price element of its
    article; it is not below zero when that text has no minus sign, unless
    it reads as a NaN. *)
Theorem scrapear_pagina_precio_sin_menos :
  forall red url w ps w' p,
    scrapear_pagina red url w = (Ok ps, w') -> In p ps ->
    exists soup articulo t,
      red (num_peticiones w) url = Some soup /\
      In articulo (select SEL_ARTICULO soup) /\
      texto_de SEL_PRECIO articulo = Ok t /\
      parsear_precio t = Ok (precio p) /\
      (~ In 45 t -> precio p = NaN \/ no_negativo (precio p) = true).
Proof.
  intros red url w ps w' p Hs Hp.
  destruct (scrapear_pagina_In _ _ _ _ _ _ Hs Hp) as (soup & a & Hr & Ha & Hok).
  apply procesar_articulo_Ok in Hok as (_ & (t & Ht & Hf) & _).
  exists soup, a, t. repeat (split; [assumption|]).
  now apply parsear_precio_sin_menos.
Qed.

Lemma scrapear_pagina_precio_sin_menos_witness :
  scrapear_pagina (red_de pagina_2) URL_PAGINA_2 mundo_inicial =
    (Ok [producto_C], anotar [Peticion URL_PAGINA_2] mundo_inicial) /\
  In producto_C [producto_C] /\
  exists soup articulo t,
    red_de pagina_2 (num_peticiones mundo_inicial) URL_PAGINA_2 = Some soup /\
    In articulo (select SEL_ARTICULO soup) /\
    texto_de SEL_PRECIO articulo = Ok t /\
    parsear_precio t = Ok (precio producto_C) /\
    (~ In 45 t -> precio producto_C = NaN \/ no_negativo (precio producto_C) = true).
Proof.
  assert (H1 : scrapear_pagina (red_de pagina_2) URL_PAGINA_2 mundo_inicial =
               (Ok [producto_C], anotar [Peticion URL_PAGINA_2] mundo_inicial))
    by (vm_compute; reflexivity).
  assert (H2 : In producto_C [producto_C]) by (left; reflexivity).
  refine (conj H1 (conj H2 _)).
  exact (scrapear_pagina_precio_sin_menos _ _ _ _ _ _ H1 H2).
Defined.

(** C4 as stated fails: the price text of this article is "£-5.00", and
    the article gives a record whose price is below zero. *)
Lemma scrapear_pagina_precio_negativo_contraejemplo :
  (scrapear_pagina (red_de pagina_precio_negativo) URL_INICIAL mundo_inicial).1 =
  Ok [{| titulo := u "N"; precio := Finito true 500 (-2); valoracion := None;
         cantidad_stock := None; texto_stock := u "In stock" |}] /\
  no_negativo (Finito true 500 (-2)) = false /\
  negativo (Finito true 500 (-2)) = true.
Proof. split; [vm_compute; reflexivity | split; reflexivity]. Qed.

Lemma productos_validos l :
  Forall (fun a => exists p, procesar_articulo a = Ok p) l ->
  Forall2 (fun a p => procesar_articulo a = Ok p) l (flat_map producto_de l) /\
  flat_map aviso_de l = [].
Proof.
  induction 1 as [|a r [p Hp] Hr [IH1 IH2]]; [split; [constructor | reflexivity]|].
  cbn [flat_map]. unfold producto_de at 1, aviso_de at 1. rewrite Hp. cbn [app].
  split; [constructor; assumption | exact IH2].
Qed.

(** C8.  Page extraction never raises.  When one article of a page fails
    and the others go through, the page gives a record for each of the
    others, in the order of the articles, and one warning for the one that
    failed. *)
Theorem scrapear_pagina_aisla_fallo :
  (forall red url w, exists ps w', scrapear_pagina red url w = (Ok ps, w')) /\
  (forall red url w soup l1 malo l2 e,
     red (num_peticiones w) url = Some soup ->
     select SEL_ARTICULO soup = l1 ++ malo :: l2 ->
     Forall (fun a => exists p, procesar_articulo a = Ok p) (l1 ++ l2) ->
     procesar_articulo malo = Lanza e ->
     exists ps,
       scrapear_pagina red url w = (Ok ps, anotar [Peticion url; LogWarning e] w) /\
       length ps = (length (select SEL_ARTICULO soup) - 1)%nat /\
       Forall2 (fun a p => procesar_articulo a = Ok p) (l1 ++ l2) ps).
Proof.
  split.
  - intros red url w. rewrite scrapear_pagina_anotar.
    destruct (red (num_peticiones w) url); eauto.
  - intros red url w soup l1 malo l2 e Hr Hsel Hok Hmalo.
    rewrite scrapear_pagina_anotar, Hr. unfold productos_de, avisos_de.
    rewrite Hsel, !flat_map_app. cbn [flat_map].
    unfold producto_de at 2, aviso_de at 2. rewrite Hmalo. cbn [app].
    apply Forall_app in Hok as [H1 H2].
    destruct (productos_validos _ H1) as [F1 A1].
    destruct (productos_validos _ H2) as [F2 A2].
    rewrite A1, A2. cbn [app].
    exists (flat_map producto_de l1 ++ flat_map producto_de l2).
    split; [reflexivity|]. split.
    + rewrite !length_app. cbn [length].
      rewrite <- (Forall2_length _ _ _ F1), <- (Forall2_length _ _ _ F2). lia.
    + now apply Forall2_app.
Qed.

Lemma scrapear_pagina_aisla_fallo_witness :
  red_de pagina_un_fallo (num_peticiones mundo_inicial) URL_INICIAL = Some pagina_un_fallo /\
  select SEL_ARTICULO pagina_un_fallo = [art_A] ++ art_precio_malo :: [art_B] /\
  Forall (fun a => exists p, procesar_articulo a = Ok p) ([art_A] ++ [art_B]) /\
  procesar_articulo art_precio_malo = Lanza ValueError /\
  exists ps,
    scrapear_pagina (red_de pagina_un_fallo) URL_INICIAL mundo_inicial =
      (Ok ps, anotar [Peticion URL_INICIAL; LogWarning ValueError] mundo_inicial) /\
    length ps = (length (select SEL_ARTICULO pagina_un_fallo) - 1)%nat /\
    Forall2 (fun a p => procesar_articulo a = Ok p) ([art_A] ++ [art_B]) ps.
Proof.
  assert (H1 : red_de pagina_un_fallo (num_peticiones mundo_inicial) URL_INICIAL =
               Some pagina_un_fallo) by reflexivity.
  assert (H2 : select SEL_ARTICULO pagina_un_fallo = [art_A] ++ art_precio_malo :: [art_B])
    by (vm_compute; reflexivity).
  assert (H3 : Forall (fun a => exists p, procesar_articulo a = Ok p) ([art_A] ++ [art_B])).
  { constructor; [exists producto_A; vm_compute; reflexivity|].
    constructor; [exists producto_B; vm_compute; reflexivity | constructor]. }
  assert (H4 : procesar_articulo art_precio_malo = Lanza ValueError)
    by (vm_compute; reflexivity).
  refine (conj H1 (conj H2 (conj H3 (conj H4 _)))).
  exact (proj2 scrapear_pagina_aisla_fallo _ _ _ _ _ _ _ _ H1 H2 H3 H4).
Defined.

(** ** One iteration of the crawl *)

Lemma eventos_extraccion_peticiones url r :
  List.filter es_peticion (eventos_extraccion url r) = [Peticion url].
Proof.
  destruct r as [soup|]; [|reflexivity]. cbn [eventos_extraccion List.filter es_peticion].
  unfold avisos_de. now rewrite avisos_sin_peticion.
Qed.

Lemma eventos_enlace_peticiones url r :
  List.filter es_peticion (eventos_enlace url r) = [Peticion url].
Proof.
  unfold eventos_enlace. destruct r as [soup|]; [|reflexivity].
  destruct (destino_de (Some soup)); reflexivity.
Qed.

Lemma eventos_iteracion_peticiones url r1 r2 :
  List.filter es_peticion (eventos_iteracion url r1 r2) = [Peticion url; Peticion url].
Proof.
  unfold eventos_iteracion. cbn [List.filter es_peticion].
  now rewrite List.filter_app, eventos_extraccion_peticiones, eventos_enlace_peticiones.
Qed.

Lemma peticiones_filtro es :
  flat_map (fun e => match e with Peticion url => [url] | _ => [] end) es =
  flat_map (fun e => match e with Peticion url => [url] | _ => [] end)
           (List.filter es_peticion es).
Proof.
  induction es as [|e r IH]; [reflexivity|].
  destruct e; cbn [flat_map List.filter es_peticion app]; now rewrite IH.
Qed.

Lemma peticiones_anotar_iteracion url r1 r2 w :
  peticiones (anotar (eventos_iteracion url r1 r2) w) = peticiones w ++ [url; url].
Proof.
  unfold peticiones, anotar. cbn [traza]. rewrite flat_map_app. f_equal.
  now rewrite peticiones_filtro, eventos_iteracion_peticiones.
Qed.

Lemma num_peticiones_anotar_iteracion url r1 r2 w :
  num_peticiones (anotar (eventos_iteracion url r1 r2) w) = (num_peticiones w + 2)%nat.
Proof. now rewrite num_peticiones_anotar, eventos_iteracion_peticiones. Qed.

Lemma iteracion_anotar red url tot w :
  iteracion red url tot w =
  let r1 := red (num_peticiones w) url in
  let r2 := red (S (num_peticiones w)) url in
  (match destino_de r2 with
   | Fin => Ok (None, tot ++ productos_opt r1)
   | Sigue url' => Ok (Some url', tot ++ productos_opt r1)
   | SinHref => Lanza KeyError
   end,
   anotar (eventos_iteracion url r1 r2) w).
Proof.
  cbv zeta. unfold iteracion.
  unfold mbind at 1, M_bind at 1, registrar at 1.
  change (Mundo (traza w ++ [LogInfoScrapeando url]) (archivos w) (bases w))
    with (anotar [LogInfoScrapeando url] w).
  unfold mbind at 1, M_bind at 1. rewrite scrapear_pagina_anotar.
  assert (N0 : num_peticiones (anotar [LogInfoScrapeando url] w) = num_peticiones w).
  { rewrite num_peticiones_anotar. cbn. lia. }
  rewrite N0.
  set (r1 := red (num_peticiones w) url).
  assert (E1 : (match r1 with
                | Some soup => (Ok (productos_de soup),
                                anotar (Peticion url :: avisos_de soup)
                                  (anotar [LogInfoScrapeando url] w))
                | None => (Ok [], anotar [Peticion url; LogError url]
                                    (anotar [LogInfoScrapeando url] w))
                end) =
               (Ok (productos_opt r1),
                anotar (LogInfoScrapeando url :: eventos_extraccion url r1) w)).
  { destruct r1; cbn [productos_opt eventos_extraccion]; now rewrite anotar_anotar. }
  rewrite E1. clear E1.
  set (w1 := anotar (LogInfoScrapeando url :: eventos_extraccion url r1) w).
  assert (N1 : num_peticiones w1 = S (num_peticiones w)).
  { unfold w1. rewrite num_peticiones_anotar. cbn [List.filter es_peticion].
    rewrite eventos_extraccion_peticiones. cbn. lia. }
  unfold mbind, M_bind, obtener_soup. rewrite N1.
  unfold eventos_iteracion, eventos_enlace, destino_de, enlace_siguiente.
  destruct (red (S (num_peticiones w)) url) as [soup|].
  - unfold mbind, M_bind, registrar, mret, M_ret, lanzar.
    destruct (select_one_bajo SEL_LI_NEXT SEL_A soup) as [a|].
    + destruct (atributos a !! u "href") as [h|]; unfold w1, anotar; cbn;
        rewrite <- ?app_assoc; reflexivity.
    + unfold w1, anotar; cbn; rewrite <- ?app_assoc; reflexivity.
  - unfold mbind, M_bind, registrar, mret, M_ret. unfold w1, anotar; cbn.
    rewrite <- ?app_assoc. reflexivity.
Qed.

(** ** The crawl loop *)

Lemma destino_Sigue_vivo r url' : destino_de r = Sigue url' -> cursor_vivo (Some url') = Some url'.
Proof.
  unfold destino_de. destruct r as [soup|]; [|discriminate].
  destruct (enlace_siguiente soup) as [a|]; [|discriminate].
  destruct (atributos a !! u "href") as [h|]; [|discriminate].
  intros [= <-]. reflexivity.
Qed.

Lemma cursor_vivo_Some url : url <> [] -> cursor_vivo (Some url) = Some url.
Proof. destruct url; [congruence | reflexivity]. Qed.

Lemma recorrido_fin_vivo red n url vs fin :
  cursor_vivo (Some url) = Some url -> recorrido red n url vs fin ->
  cursor_vivo (Some fin) = Some fin.
Proof.
  revert n url. induction vs as [|v r IH]; intros n url Hu; cbn [recorrido].
  - now intros <-.
  - intros (_ & _ & _ & url' & Hd & Hr). eapply IH; [|exact Hr].
    eapply destino_Sigue_vivo; eassumption.
Qed.

(** The loop goes through the pages of a [recorrido] and comes to its end
    with their records and two requests for each. *)
Lemma bucle_recorrido red vs :
  forall url fin tot w pasos,
    cursor_vivo (Some url) = Some url ->
    recorrido red (num_peticiones w) url vs fin ->
    exists w',
      bucle red (length vs + pasos) (Some url) tot w =
        bucle red pasos (Some fin)
          (tot ++ flat_map (fun v => productos_opt (v_extraccion v)) vs) w' /\
      num_peticiones w' = (num_peticiones w + 2 * length vs)%nat /\
      peticiones w' = peticiones w ++ dos_veces (map v_url vs) /\
      archivos w' = archivos w /\ bases w' = bases w.
Proof.
  induction vs as [|v r IH]; intros url fin tot w pasos Hu; cbn [recorrido].
  - intros <-. exists w. cbn. rewrite !app_nil_r. repeat split; lia.
  - intros (Hv & H1 & H2 & url' & Hd & Hr).
    cbn [length Nat.add bucle]. rewrite Hu, iteracion_anotar. cbv zeta.
    rewrite H2, Hd.
    set (w1 := anotar (eventos_iteracion url (red (num_peticiones w) url) (Some (v_enlace v))) w).
    assert (N1 : num_peticiones w1 = (num_peticiones w + 2)%nat)
      by apply num_peticiones_anotar_iteracion.
    rewrite <- N1 in Hr.
    destruct (IH url' fin (tot ++ productos_opt (red (num_peticiones w) url)) w1 pasos
                (destino_Sigue_vivo _ _ Hd) Hr) as (w' & Hb & Hn & Hp & Ha & Hbs).
    exists w'. split; [|split; [|split; [|split]]].
    + rewrite Hb. f_equal. cbn [flat_map]. rewrite <- H1, app_assoc. reflexivity.
    + rewrite Hn, N1. cbn [length]. lia.
    + rewrite Hp. unfold w1. rewrite peticiones_anotar_iteracion. unfold dos_veces.
      cbn [map flat_map]. rewrite Hv, <- app_assoc. reflexivity.
    + rewrite Ha. reflexivity.
    + rewrite Hbs. reflexivity.
Qed.

(** The last iteration: the lookup of the next link finds nothing. *)
Lemma bucle_fin red url tot w pasos :
  cursor_vivo (Some url) = Some url ->
  destino_de (red (S (num_peticiones w)) url) = Fin ->
  bucle red (S pasos) (Some url) tot w =
  Some (Ok (tot ++ productos_opt (red (num_peticiones w) url)),
        anotar (eventos_iteracion url (red (num_peticiones w) url)
                  (red (S (num_peticiones w)) url)) w).
Proof.
  intros Hu Hd. cbn [bucle]. rewrite Hu, iteracion_anotar. cbv zeta. rewrite Hd.
  destruct pasos; reflexivity.
Qed.

Lemma URL_INICIAL_vivo : cursor_vivo (Some URL_INICIAL) = Some URL_INICIAL.
Proof. reflexivity. Qed.

Lemma bucle_recorrido_fin red vs fin tot w pasos :
  recorrido red (num_peticiones w) URL_INICIAL vs fin ->
  destino_de (red (S (num_peticiones w + 2 * length vs)) fin) = Fin ->
  (length vs < pasos)%nat ->
  exists w',
    bucle red pasos (Some URL_INICIAL) tot w =
      Some (Ok (tot ++ flat_map (fun v => productos_opt (v_extraccion v)) vs ++
                productos_opt (red (num_peticiones w + 2 * length vs)%nat fin)), w') /\
    num_peticiones w' = (num_peticiones w + 2 * (length vs + 1))%nat /\
    peticiones w' = peticiones w ++ dos_veces (map v_url vs ++ [fin]) /\
    archivos w' = archivos w /\ bases w' = bases w.
Proof.
  intros Hr Hd Hp.
  destruct (bucle_recorrido red vs URL_INICIAL fin tot w (pasos - length vs)
              URL_INICIAL_vivo Hr) as (w1 & Hb & Hn & Hpe & Ha & Hbs).
  replace (length vs + (pasos - length vs))%nat with pasos in Hb by lia.
  destruct (pasos - length vs)%nat as [|k] eqn:Ek; [lia|].
  rewrite <- Hn in Hd.
  rewrite (bucle_fin red fin _ w1 k (recorrido_fin_vivo _ _ _ _ _ URL_INICIAL_vivo Hr) Hd) in Hb.
  eexists. split; [rewrite Hb, Hn, app_assoc; reflexivity|].
  rewrite num_peticiones_anotar_iteracion, peticiones_anotar_iteracion, Hn, Hpe.
  unfold dos_veces. rewrite flat_map_app, <- app_assoc. cbn.
  repeat split; try assumption; lia.
Qed.

Lemma productos_de_visitas vs docs :
  map v_extraccion vs = map Some docs ->
  flat_map (fun v => productos_opt (v_extraccion v)) vs = flat_map productos_de docs.
Proof.
  revert docs. induction vs as [|v r IH]; intros [|d ds]; try discriminate;
    [reflexivity|].
  cbn [map flat_map]. intros [= Hv Hr]. rewrite Hv, (IH _ Hr). reflexivity.
Qed.

(** C1.  When the pages before a page are fetched and lead one to the
    next, and both requests for that page fail, the crawl returns the
    records of the pages before it, in page order, and stops there: the
    last URL it requests is the one of the page that failed. *)
Theorem crawl_fallo_en_pagina :
  forall red w vs docs fin pasos,
    recorrido red (num_peticiones w) URL_INICIAL vs fin ->
    map v_extraccion vs = map Some docs ->
    red (num_peticiones w + 2 * length vs)%nat fin = None ->
    red (S (num_peticiones w + 2 * length vs)) fin = None ->
    (length vs < pasos)%nat ->
    exists w',
      obtener_todos_los_productos red pasos w =
        Some (Ok (flat_map productos_de docs), w') /\
      peticiones w' = peticiones w ++ dos_veces (map v_url vs ++ [fin]) /\
      num_peticiones w' = (num_peticiones w + 2 * (length vs + 1))%nat.
Proof.
  intros red w vs docs fin pasos Hr Hdocs H1 H2 Hp.
  destruct (bucle_recorrido_fin red vs fin [] w pasos Hr) as (w' & Hb & Hn & Hpe & _);
    [now rewrite H2 | assumption |].
  exists w'. unfold obtener_todos_los_productos. rewrite Hb, H1.
  cbn [productos_opt app]. rewrite app_nil_r.
  rewrite (productos_de_visitas _ _ Hdocs). repeat split; assumption.
Qed.

Lemma crawl_fallo_en_pagina_witness :
  recorrido red_cortada (num_peticiones mundo_inicial) URL_INICIAL
    [Visita URL_INICIAL (Some pagina_1) pagina_1] URL_PAGINA_2 /\
  map v_extraccion [Visita URL_INICIAL (Some pagina_1) pagina_1] = map Some [pagina_1] /\
  red_cortada (num_peticiones mundo_inicial + 2 * 1)%nat URL_PAGINA_2 = None /\
  red_cortada (S (num_peticiones mundo_inicial + 2 * 1)) URL_PAGINA_2 = None /\
  (1 < 2)%nat /\
  exists w',
    obtener_todos_los_productos red_cortada 2 mundo_inicial =
      Some (Ok (flat_map productos_de [pagina_1]), w') /\
    peticiones w' = peticiones mundo_inicial ++ dos_veces ([URL_INICIAL] ++ [URL_PAGINA_2]) /\
    num_peticiones w' = (num_peticiones mundo_inicial + 2 * (1 + 1))%nat.
Proof.
  assert (H1 : recorrido red_cortada (num_peticiones mundo_inicial) URL_INICIAL
                 [Visita URL_INICIAL (Some pagina_1) pagina_1] URL_PAGINA_2).
  { cbn [recorrido v_url v_extraccion v_enlace].
    split; [reflexivity|]. split; [vm_compute; reflexivity|].
    split; [vm_compute; reflexivity|].
    exists URL_PAGINA_2. split; [vm_compute; reflexivity | reflexivity]. }
  assert (H2 : map v_extraccion [Visita URL_INICIAL (Some pagina_1) pagina_1] =
               map Some [pagina_1]) by reflexivity.
  assert (H3 : red_cortada (num_peticiones mundo_inicial + 2 * 1)%nat URL_PAGINA_2 = None)
    by (vm_compute; reflexivity).
  assert (H4 : red_cortada (S (num_peticiones mundo_inicial + 2 * 1)) URL_PAGINA_2 = None)
    by (vm_compute; reflexivity).
  assert (H5 : (1 < 2)%nat) by lia.
  refine (conj H1 (conj H2 (conj H3 (conj H4 (conj H5 _))))).
  exact (crawl_fallo_en_pagina red_cortada mundo_inicial _ _ _ 2 H1 H2 H3 H4 H5).
Defined.

Lemma bucle_None red pasos tot w : bucle red pasos None tot w = Some (Ok tot, w).
Proof. destruct pasos; reflexivity. Qed.

(** More iterations allowed change nothing in a crawl that returned. *)
Lemma bucle_mono red pasos :
  forall k url tot w r,
    bucle red pasos url tot w = Some r -> bucle red (pasos + k) url tot w = Some r.
Proof.
  induction pasos as [|pasos IH]; intros k url tot w r; cbn [bucle Nat.add].
  - destruct (cursor_vivo url) eqn:E; [discriminate|]. intros <-.
    destruct k; cbn [bucle]; now rewrite E.
  - destruct (cursor_vivo url) as [url'|]; [|auto].
    destruct (iteracion red url' tot w) as [[[c t]|e] w']; [apply IH | auto].
Qed.

Lemma destino_Sigue_Some r url' : destino_de r = Sigue url' -> exists soup, r = Some soup.
Proof. destruct r; [eauto | discriminate]. Qed.

(** A crawl that returns went through pages that led one to the next, up
    to one where the lookup of the next link found nothing. *)
Lemma bucle_Ok_recorrido red pasos :
  forall url tot w ps w',
    cursor_vivo (Some url) = Some url ->
    bucle red pasos (Some url) tot w = Some (Ok ps, w') ->
    exists vs fin,
      recorrido red (num_peticiones w) url vs fin /\
      destino_de (red (S (num_peticiones w + 2 * length vs)) fin) = Fin /\
      (length vs < pasos)%nat.
Proof.
  induction pasos as [|pasos IH]; intros url tot w ps w' Hu; cbn [bucle]; rewrite Hu;
    [discriminate|].
  rewrite iteracion_anotar. cbv zeta.
  destruct (destino_de (red (S (num_peticiones w)) url)) as [|url'|] eqn:Hd;
    [| |discriminate].
  - intros _. exists [], url. cbn [recorrido length].
    rewrite Nat.mul_0_r, Nat.add_0_r. split; [reflexivity|]. split; [exact Hd | lia].
  - intros Hb. destruct (destino_Sigue_Some _ _ Hd) as [soup Hs].
    apply IH in Hb as (vs & fin & Hr & Hf & Hl); [|eapply destino_Sigue_vivo; eassumption].
    rewrite num_peticiones_anotar_iteracion in Hr, Hf.
    exists (Visita url (red (num_peticiones w) url) soup :: vs), fin.
    cbn [recorrido v_url v_extraccion v_enlace length].
    split; [|split; [|lia]].
    + split; [reflexivity|]. split; [reflexivity|]. split; [exact Hs|].
      exists url'. rewrite <- Hs. auto.
    + rewrite <- Hf. do 3 f_equal. lia.
Qed.

(** C6.  The crawl returns exactly when the pages it goes through, each
    leading to the next, come to one where the lookup of the next link finds
    nothing; it has then made two requests for each of them.  An iteration
    leaves the cursor empty exactly when that lookup finds nothing, which is
    when the request fails or the document has no next anchor, and a cursor
    it sets is never the empty text. *)
Theorem crawl_termina :
  (forall red w vs fin pasos,
     recorrido red (num_peticiones w) URL_INICIAL vs fin ->
     destino_de (red (S (num_peticiones w + 2 * length vs)) fin) = Fin ->
     (length vs < pasos)%nat ->
     exists ps w',
       obtener_todos_los_productos red pasos w = Some (Ok ps, w') /\
       num_peticiones w' = (num_peticiones w + 2 * (length vs + 1))%nat) /\
  (forall red w pasos ps w',
     obtener_todos_los_productos red pasos w = Some (Ok ps, w') ->
     exists vs fin,
       recorrido red (num_peticiones w) URL_INICIAL vs fin /\
       destino_de (red (S (num_peticiones w + 2 * length vs)) fin) = Fin /\
       (length vs < pasos)%nat) /\
  (forall red url tot w,
     (exists tot' w', iteracion red url tot w = (Ok (None, tot'), w')) <->
     destino_de (red (S (num_peticiones w)) url) = Fin) /\
  (forall r,
     destino_de r = Fin <->
     r = None \/ exists soup, r = Some soup /\ enlace_siguiente soup = None) /\
  (forall red url tot w url' tot' w',
     iteracion red url tot w = (Ok (Some url', tot'), w') ->
     cursor_vivo (Some url') = Some url').
Proof.
  split; [|split; [|split; [|split]]].
  - intros red w vs fin pasos Hr Hd Hp.
    destruct (bucle_recorrido_fin red vs fin [] w pasos Hr Hd Hp) as (w' & Hb & Hn & _).
    eexists _, w'. split; [exact Hb | exact Hn].
  - intros red w pasos ps w' Hb.
    exact (bucle_Ok_recorrido red pasos _ _ _ _ _ URL_INICIAL_vivo Hb).
  - intros red url tot w. rewrite iteracion_anotar. cbv zeta.
    destruct (destino_de (red (S (num_peticiones w)) url)); split;
      try discriminate; try (intros (? & ? & [=]); fail); eauto.
  - intros r. unfold destino_de. destruct r as [soup|].
    + destruct (enlace_siguiente soup) as [a|] eqn:E.
      * destruct (atributos a !! u "href"); split; try discriminate;
          intros [[=]|(s & [= <-] & Hs)]; congruence.
      * split; [intros _; right; eauto | reflexivity].
    + split; [intros _; now left | reflexivity].
  - intros red url tot w url' tot' w'. rewrite iteracion_anotar. cbv zeta.
    destruct (destino_de (red (S (num_peticiones w)) url)) eqn:Hd; intros [=]; subst.
    eapply destino_Sigue_vivo; eassumption.
Qed.

Lemma crawl_termina_witness :
  recorrido red_estable (num_peticiones mundo_inicial) URL_INICIAL
    [Visita URL_INICIAL (Some pagina_1) pagina_1] URL_PAGINA_2 /\
  destino_de (red_estable (S (num_peticiones mundo_inicial + 2 * 1)) URL_PAGINA_2) = Fin /\
  (1 < 2)%nat /\
  exists ps w',
    obtener_todos_los_productos red_estable 2 mundo_inicial = Some (Ok ps, w') /\
    num_peticiones w' = (num_peticiones mundo_inicial + 2 * (1 + 1))%nat.
Proof.
  assert (H1 : recorrido red_estable (num_peticiones mundo_inicial) URL_INICIAL
                 [Visita URL_INICIAL (Some pagina_1) pagina_1] URL_PAGINA_2).
  { cbn [recorrido v_url v_extraccion v_enlace].
    split; [reflexivity|]. split; [vm_compute; reflexivity|].
    split; [vm_compute; reflexivity|].
    exists URL_PAGINA_2. split; [vm_compute; reflexivity | reflexivity]. }
  assert (H2 : destino_de (red_estable (S (num_peticiones mundo_inicial + 2 * 1))
                             URL_PAGINA_2) = Fin) by (vm_compute; reflexivity).
  assert (H3 : (1 < 2)%nat) by lia.
  refine (conj H1 (conj H2 (conj H3 _))).
  exact (proj1 crawl_termina red_estable mundo_inicial _ _ 2%nat H1 H2 H3).
Defined.

(** ** The driver and its reference *)

Lemma bucle_determinista red :
  determinista red ->
  forall pasos url tot w,
    cursor_vivo (Some url) = Some url ->
    option_map fst (bucle red pasos (Some url) tot w) =
    crawlAll_spec (red 0%nat) pasos (Some url) tot.
Proof.
  intros Hdet. induction pasos as [|pasos IH]; intros url tot w Hu;
    cbn [bucle crawlAll_spec]; rewrite Hu; [reflexivity|].
  rewrite iteracion_anotar. cbv zeta.
  rewrite (Hdet (S (num_peticiones w)) 0%nat url), (Hdet (num_peticiones w) 0%nat url).
  destruct (red 0%nat url) as [doc|] eqn:Er.
  - cbn [productos_opt]. destruct (destino_de (Some doc)) as [|url'|] eqn:Hd.
    + unfold destino_de in Hd. rewrite bucle_None.
      destruct (enlace_siguiente doc) as [a|]; [|reflexivity].
      destruct (atributos a !! u "href"); discriminate.
    + rewrite IH by (eapply destino_Sigue_vivo; eassumption).
      unfold destino_de in Hd.
      destruct (enlace_siguiente doc) as [a|]; [|discriminate].
      destruct (atributos a !! u "href") as [h|]; [|discriminate].
      injection Hd as <-. reflexivity.
    + unfold destino_de in Hd.
      destruct (enlace_siguiente doc) as [a|]; [|discriminate].
      destruct (atributos a !! u "href") as [h|]; [discriminate | reflexivity].
  - cbn [destino_de productos_opt]. rewrite bucle_None, app_nil_r. reflexivity.
Qed.

(** C7.  An iteration requests the URL of the cursor twice; the records
    come from the answer to the first request and the next cursor from the
    answer to the second.  On a network that answers
    by the URL alone the crawl gives what the driver of the specification,
    with one fetch for each page, gives.  On the network whose first answer
    is lost the extraction of the first page fails and the crawl still goes
    on to the second page. *)
Theorem crawl_dos_peticiones :
  (forall red url tot w,
     peticiones (iteracion red url tot w).2 = peticiones w ++ [url; url] /\
     (iteracion red url tot w).1 =
       match destino_de (red (S (num_peticiones w)) url) with
       | Fin => Ok (None, tot ++ productos_opt (red (num_peticiones w) url))
       | Sigue url' => Ok (Some url', tot ++ productos_opt (red (num_peticiones w) url))
       | SinHref => Lanza KeyError
       end) /\
  (forall red,
     determinista red ->
     forall pasos w,
       option_map fst (obtener_todos_los_productos red pasos w) =
       crawlAll_spec (red 0%nat) pasos (Some URL_INICIAL) []) /\
  (red_inestable 0%nat URL_INICIAL = None /\
   option_map (fun x => (x.1, peticiones x.2))
     (obtener_todos_los_productos red_inestable 3 mundo_inicial) =
   Some (Ok [producto_C], dos_veces [URL_INICIAL; URL_PAGINA_2]) /\
   crawlAll_spec sitio 3 (Some URL_INICIAL) [] = Some (Ok [producto_A; producto_B; producto_C])).
Proof.
  split; [|split; [|split; [|split]]].
  - intros red url tot w. rewrite iteracion_anotar. cbv zeta. cbn [fst snd].
    split; [apply peticiones_anotar_iteracion | reflexivity].
  - intros red Hdet pasos w. apply bucle_determinista; [exact Hdet | reflexivity].
  - reflexivity.
  - vm_compute. reflexivity.
  - vm_compute. reflexivity.
Qed.

Lemma crawl_dos_peticiones_witness :
  determinista red_estable /\
  option_map fst (obtener_todos_los_productos red_estable 3 mundo_inicial) =
  crawlAll_spec (red_estable 0%nat) 3 (Some URL_INICIAL) [].
Proof.
  assert (H : determinista red_estable) by (intros n m url; reflexivity).
  refine (conj H _).
  exact (proj1 (proj2 crawl_dos_peticiones) red_estable H 3%nat mundo_inicial).
Defined.

(** ** Export *)

Lemma exportar_vacia w :
  exportar [] w =
  (Lanza IndexError,
   Mundo (traza w) (<[u "productos.csv" := []]> (archivos w)) (bases w)).
Proof. reflexivity. Qed.


(** C2 fails on the code.  With no record to write, [guardar_csv] leaves an
    empty file and raises IndexError at [datos[0]]; the JSON file and the
    database are not written and the count is not logged.  So ends the
    entry point on a network that never answers. *)
Theorem exportar_lista_vacia_falla :
  (forall w,
     exists w',
       exportar [] w = (Lanza IndexError, w') /\
       archivos w' !! u "productos.csv" = Some [] /\
       archivos w' !! u "productos.json" = archivos w !! u "productos.json" /\
       bases w' = bases w /\ traza w' = traza w) /\
  (exists w',
     principal red_muerta 1 mundo_inicial = Some (Lanza IndexError, w') /\
     archivos w' !! u "productos.csv" = Some [] /\
     archivos w' !! u "productos.json" = None /\
     bases w' !! u "productos.db" = None).
Proof.
  split.
  - intros w. rewrite exportar_vacia. eexists. split; [reflexivity|].
    cbn [archivos bases traza]. split; [apply lookup_insert_eq|].
    split; [|split; reflexivity].
    apply lookup_insert_ne. vm_compute. discriminate.
  - eexists. split; [vm_compute; reflexivity|].
    split; [|split]; vm_compute; reflexivity.
Qed.

(** ** The scenario of the specification

    A catalogue of two pages: A and B on the first, C on the second. *)

Example escenario_dos_paginas :
  option_map fst (obtener_todos_los_productos red_estable 3 mundo_inicial) =
  Some (Ok [producto_A; producto_B; producto_C]).
Proof. vm_compute. reflexivity. Qed.

Example escenario_exportado :
  option_map
    (fun x => (x.1, archivos x.2 !! u "productos.json",
               map snd <$> bases x.2 !! u "productos.db"))
    (principal red_estable 3 mundo_inicial) =
  Some (Ok tt,
        Some [DocJSON [producto_A; producto_B; producto_C]],
        Some [fila producto_A; fila producto_B; fila producto_C]).
Proof. vm_compute. reflexivity. Qed.

Example parsear_precio_ejemplos :
  map parsear_precio
    [LIBRA :: u "51.77"; u " 12 "; u "1e5"; u "1_0.5"; u "-0"; u "nan"; u "-inf";
     u "$5.00"; u "."; u "1e"; []] =
  [Ok (Finito false 5177 (-2)); Ok (Finito false 12 0); Ok (Finito false 1 5);
   Ok (Finito false 105 (-1)); Ok (Finito true 0 0); Ok NaN; Ok (Infinito true);
   Lanza ValueError; Lanza ValueError; Lanza ValueError; Lanza ValueError].
Proof. vm_compute. reflexivity. Qed.

Example parsear_stock_ejemplos :
  map parsear_stock
    [u "In stock (19 available)"; u "Out of stock"; u "ab12c34"; [1633; 1634]] =
  [Ok (Some 19%Z); Ok None; Ok (Some 12%Z); Ok (Some 12%Z)].
Proof. vm_compute. reflexivity. Qed.

(** * Further properties of the code *)

(** ** Prices with a sign, prices without decimals *)








Lemma entero_no_negativo l : (0 <= entero l)%Z.
Proof.
  unfold entero.
  assert (H : forall acc, (0 <= acc)%Z ->
    (0 <= fold_left (fun a c => 10 * a + Z.of_N (default 0%N (valor_decimal c))) l acc)%Z).
  { induction l as [|c r IH]; intros acc Ha; cbn [fold_left]; [exact Ha|].
    apply IH. lia. }
  apply H. lia.
Qed.






(** ** The stock count and the stock text *)

Lemma parsear_stock_Some_cota t n : parsear_stock t = Ok (Some n) -> (0 <= n)%Z.
Proof.
  unfold parsear_stock.
  destruct (buscar_digitos t) as [g|] eqn:E; [|discriminate].
  apply buscar_digitos_Some in E as (_ & _ & _ & _ & Hne & Hg & _).
  rewrite int_py_digitos by assumption. intros [= <-]. apply entero_no_negativo.
Qed.

(** X3.  The count [parsear_stock] returns is never below zero: a minus
    sign before the digits is not part of the match. *)
Theorem parsear_stock_no_negativo :
  forall t n, parsear_stock t = Ok (Some n) -> (0 <= n)%Z.
Proof. intros t n H. exact (parsear_stock_Some_cota t n H). Qed.

Lemma parsear_stock_no_negativo_witness :
  parsear_stock (u "stock: -5 left") = Ok (Some 5%Z) /\ (0 <= 5)%Z.
Proof.
  assert (H : parsear_stock (u "stock: -5 left") = Ok (Some 5%Z))
    by (vm_compute; reflexivity).
  exact (conj H (parsear_stock_no_negativo _ _ H)).
Defined.

Lemma saltar_mientras_sufijo p l : exists pre, l = pre ++ saltar_mientras p l.
Proof.
  induction l as [|c r [pre IH]]; cbn [saltar_mientras]; [now exists []|].
  destruct (p c); [exists (c :: pre); cbn; congruence | now exists []].
Qed.

(** What [strip] returns neither starts nor ends with white space. *)
Lemma strip_extremos_limpios t :
  corta es_espacio (strip t) /\ corta es_espacio (rev (strip t)).
Proof.
  unfold strip. rewrite rev_involutive. split; [|apply saltar_mientras_es_corta].
  destruct (saltar_mientras_sufijo es_espacio (rev (saltar_mientras es_espacio t)))
    as [pre E].
  destruct (saltar_mientras es_espacio (rev (saltar_mientras es_espacio t)))
    as [|c r] eqn:Ey; [exact I|].
  apply (f_equal (@rev N)) in E. rewrite rev_involutive, rev_app_distr in E.
  pose proof (saltar_mientras_es_corta es_espacio t) as Hc. rewrite E in Hc.
  destruct (rev (c :: r)) as [|x xs] eqn:Ex.
  - apply (f_equal (@length N)) in Ex. rewrite length_rev in Ex. discriminate.
  - exact Hc.
Qed.

Lemma strip_strip t : strip (strip t) = strip t.
Proof.
  destruct (strip_extremos_limpios t) as [H1 H2]. unfold strip at 1.
  rewrite (saltar_mientras_corta _ _ H1), (saltar_mientras_corta _ _ H2).
  apply rev_involutive.
Qed.

Lemma primera_valoracion_rango l v : primera_valoracion l = Some v -> (1 <= v <= 5)%Z.
Proof.
  induction l as [|c r IH]; cbn [primera_valoracion]; [discriminate|].
  rewrite MAPA_VALORACIONES_lookup.
  destruct (valor_de_palabra c) as [x|] eqn:E; [|exact IH].
  intros [= <-]. eapply valor_de_palabra_rango; eassumption.
Qed.

Lemma parsear_valoracion_rango e v :
  parsear_valoracion e = Ok (Some v) -> (1 <= v <= 5)%Z.
Proof.
  destruct e as [[t|nom cls at_ hs]|]; cbn; try discriminate.
  intros [= H]. eapply primera_valoracion_rango; eassumption.
Qed.

(** X4.  What every record of a page keeps: a rating, if it has one, from
    1 to 5; a stock count, if it has one, not below zero and the one
    [parsear_stock] reads in the stock text of the record; a stock text
    with no white space at either end. *)
Theorem scrapear_pagina_invariantes :
  forall red url w ps w' p,
    scrapear_pagina red url w = (Ok ps, w') -> In p ps ->
    (forall v, valoracion p = Some v -> (1 <= v <= 5)%Z) /\
    (forall n, cantidad_stock p = Some n -> (0 <= n)%Z) /\
    parsear_stock (texto_stock p) = Ok (cantidad_stock p) /\
    strip (texto_stock p) = texto_stock p /\
    corta es_espacio (texto_stock p) /\ corta es_espacio (rev (texto_stock p)).
Proof.
  intros red url w ps w' p Hs Hp.
  destruct (scrapear_pagina_In _ _ _ _ _ _ Hs Hp) as (soup & a & _ & _ & Hok).
  apply procesar_articulo_Ok in Hok as (_ & _ & Hv & (t & _ & Ht & Hc)).
  rewrite Ht. split; [|split; [|split; [|split]]].
  - intros v E. rewrite E in Hv. eapply parsear_valoracion_rango; eassumption.
  - intros n E. rewrite E in Hc. eapply parsear_stock_Some_cota; eassumption.
  - exact Hc.
  - apply strip_strip.
  - apply strip_extremos_limpios.
Qed.

Lemma scrapear_pagina_invariantes_witness :
  scrapear_pagina (red_de pagina_2) URL_PAGINA_2 mundo_inicial =
    (Ok [producto_C], anotar [Peticion URL_PAGINA_2] mundo_inicial) /\
  In producto_C [producto_C] /\
  (forall v, valoracion producto_C = Some v -> (1 <= v <= 5)%Z) /\
  (forall n, cantidad_stock producto_C = Some n -> (0 <= n)%Z) /\
  parsear_stock (texto_stock producto_C) = Ok (cantidad_stock producto_C) /\
  strip (texto_stock producto_C) = texto_stock producto_C /\
  corta es_espacio (texto_stock producto_C) /\
  corta es_espacio (rev (texto_stock producto_C)).
Proof.
  assert (H1 : scrapear_pagina (red_de pagina_2) URL_PAGINA_2 mundo_inicial =
               (Ok [producto_C], anotar [Peticion URL_PAGINA_2] mundo_inicial))
    by (vm_compute; reflexivity).
  assert (H2 : In producto_C [producto_C]) by (left; reflexivity).
  refine (conj H1 (conj H2 _)).
  exact (scrapear_pagina_invariantes _ _ _ _ _ _ H1 H2).
Defined.

(** ** The accounts of a page *)




(** ** Which articles are kept *)



(** ** The three sinks *)














(** ** The runs of the crawl *)

Lemma bucle_corre red pasos :
  forall url tot w r, bucle red pasos url tot w = Some r -> corre red url tot w r.
Proof.
  induction pasos as [|pasos IH]; intros url tot w r; cbn [bucle];
    destruct (cursor_vivo url) as [u|] eqn:Eu; try discriminate;
    try (intros [= <-]; now apply corre_fin).
  destruct (iteracion red u tot w) as [[[url' tot']|e] w'] eqn:Ei.
  - intros H. eapply corre_paso; eauto.
  - intros [= <-]. eapply corre_lanza; eauto.
Qed.

Lemma corre_bucle red url tot w r :
  corre red url tot w r -> exists pasos, bucle red pasos url tot w = Some r.
Proof.
  induction 1 as [url tot w Hu | url u tot w url' tot' w' r Hu Hi _ [pasos IH]
                 | url u tot w e w' Hu Hi].
  - exists O. cbn [bucle]. now rewrite Hu.
  - exists (S pasos). cbn [bucle]. now rewrite Hu, Hi.
  - exists 1%nat. cbn [bucle]. now rewrite Hu, Hi.
Qed.

Lemma iteracion_Ok red u tot w c tot' w' :
  iteracion red u tot w = (Ok (c, tot'), w') ->
  w' = anotar (eventos_iteracion u (red (num_peticiones w) u)
                 (red (S (num_peticiones w)) u)) w /\
  tot' = tot ++ productos_opt (red (num_peticiones w) u) /\
  match c with
  | None => destino_de (red (S (num_peticiones w)) u) = Fin
  | Some url' => destino_de (red (S (num_peticiones w)) u) = Sigue url'
  end.
Proof.
  rewrite iteracion_anotar. cbv zeta.
  destruct (destino_de (red (S (num_peticiones w)) u)); intros [= <- <- <-]; auto.
Qed.

Lemma iteracion_Lanza red u tot w e w' :
  iteracion red u tot w = (Lanza e, w') ->
  e = KeyError /\
  w' = anotar (eventos_iteracion u (red (num_peticiones w) u)
                 (red (S (num_peticiones w)) u)) w /\
  destino_de (red (S (num_peticiones w)) u) = SinHref.
Proof.
  rewrite iteracion_anotar. cbv zeta.
  destruct (destino_de (red (S (num_peticiones w)) u)); intros [= <- <-]; auto.
Qed.

Lemma cursor_vivo_eq url u : cursor_vivo url = Some u -> url = Some u.
Proof. destruct url as [[|c r]|]; cbn; congruence. Qed.

Lemma en_catalogo_inicial : en_catalogo URL_INICIAL.
Proof. exists (u "page-1.html"). reflexivity. Qed.

Lemma en_catalogo_Sigue r url' : destino_de r = Sigue url' -> en_catalogo url'.
Proof.
  unfold destino_de. destruct r as [soup|]; [|discriminate].
  destruct (enlace_siguiente soup) as [a|]; [|discriminate].
  destruct (atributos a !! u "href") as [h|]; [|discriminate].
  intros [= <-]. exists h. unfold PREFIJO. now rewrite <- app_assoc.
Qed.

Lemma cuenta_anotar f es w :
  cuenta f (anotar es w) = (cuenta f w + length (List.filter f es))%nat.
Proof. unfold cuenta, anotar. cbn [traza]. now rewrite List.filter_app, length_app. Qed.

Lemma avisos_filtro f articulos :
  (forall e, f (LogWarning e) = false) ->
  List.filter f (flat_map aviso_de articulos) = [].
Proof.
  intros Hf. induction articulos as [|a r IH]; [reflexivity|]. cbn [flat_map].
  rewrite List.filter_app, IH. unfold aviso_de.
  destruct (procesar_articulo a); cbn [List.filter]; [reflexivity | now rewrite Hf].
Qed.

Lemma eventos_iteracion_dormir u r1 r2 :
  List.filter es_dormir (eventos_iteracion u r1 r2) =
  match destino_de r2 with Sigue _ => [Dormir] | _ => [] end.
Proof.
  unfold eventos_iteracion. cbn [List.filter es_dormir]. rewrite List.filter_app.
  assert (E1 : List.filter es_dormir (eventos_extraccion u r1) = []).
  { destruct r1 as [s|]; [|reflexivity]. cbn [eventos_extraccion List.filter es_dormir].
    now apply avisos_filtro. }
  rewrite E1. unfold eventos_enlace. destruct r2 as [s|]; [|reflexivity].
  destruct (destino_de (Some s)); reflexivity.
Qed.

Lemma eventos_iteracion_info u r1 r2 :
  List.filter es_info_scrapeando (eventos_iteracion u r1 r2) = [LogInfoScrapeando u].
Proof.
  unfold eventos_iteracion. cbn [List.filter es_info_scrapeando]. f_equal.
  rewrite List.filter_app.
  assert (E1 : List.filter es_info_scrapeando (eventos_extraccion u r1) = []).
  { destruct r1 as [s|]; [|reflexivity].
    cbn [eventos_extraccion List.filter es_info_scrapeando]. now apply avisos_filtro. }
  rewrite E1. unfold eventos_enlace. destruct r2 as [s|]; [|reflexivity].
  destruct (destino_de (Some s)); reflexivity.
Qed.

(** What a run leaves in the world: the files and the database as they
    were, the log longer, and for each page it went through two requests
    in a row for its URL, one line of log, and one pause if another page
    followed. *)
Lemma corre_mundo red url tot w r :
  corre red url tot w r ->
  (forall x, url = Some x -> en_catalogo x) ->
  archivos r.2 = archivos w /\ bases r.2 = bases w /\
  (exists es, traza r.2 = traza w ++ es) /\
  exists urls,
    Forall en_catalogo urls /\
    head urls = cursor_vivo url /\
    peticiones r.2 = peticiones w ++ dos_veces urls /\
    num_peticiones r.2 = (num_peticiones w + 2 * length urls)%nat /\
    cuenta es_info_scrapeando r.2 = (cuenta es_info_scrapeando w + length urls)%nat /\
    (cuenta es_dormir r.2 + (if urls is [] then 0 else 1) =
     cuenta es_dormir w + length urls)%nat.
Proof.
  induction 1 as [url tot w Hu | url u tot w url' tot' w' r Hu Hi Hc IH
                 | url u tot w e w' Hu Hi]; intros Hcat; cbn [snd].
  - split; [reflexivity|]. split; [reflexivity|].
    split; [exists []; now rewrite app_nil_r|].
    exists []. cbn. rewrite Hu, app_nil_r. repeat split; auto.
  - apply iteracion_Ok in Hi as (-> & -> & Hd).
    apply cursor_vivo_eq in Hu as Hurl. pose proof (Hcat _ Hurl) as Hcu.
    destruct IH as (Ha & Hb & [es Ht] & urls & Hf & Hh & Hp & Hn & Hi & Hs).
    { intros x ->. eapply en_catalogo_Sigue; eassumption. }
    split; [exact Ha|]. split; [exact Hb|].
    split; [eexists; rewrite Ht; unfold anotar; cbn [traza];
            rewrite <- app_assoc; reflexivity|].
    exists (u :: urls). split; [constructor; assumption|].
    split; [now rewrite Hu|].
    rewrite Hp, Hn, Hi, peticiones_anotar_iteracion, num_peticiones_anotar_iteracion.
    rewrite cuenta_anotar, eventos_iteracion_info.
    rewrite cuenta_anotar, eventos_iteracion_dormir in Hs.
    cbn [length dos_veces flat_map app]. rewrite <- app_assoc. cbn [app].
    split; [reflexivity|]. split; [lia|]. split; [lia|].
    destruct url' as [x|].
    + rewrite Hd in Hs. rewrite (destino_Sigue_vivo _ _ Hd) in Hh.
      destruct urls; [discriminate|]. cbn [length] in *. lia.
    + rewrite Hd in Hs. cbn [cursor_vivo] in Hh. destruct urls; [|discriminate].
      cbn [length] in *. lia.
  - apply iteracion_Lanza in Hi as (-> & -> & Hd).
    apply cursor_vivo_eq in Hu as Hurl. pose proof (Hcat _ Hurl) as Hcu.
    split; [reflexivity|]. split; [reflexivity|]. split; [eexists; reflexivity|].
    exists [u]. split; [repeat constructor; assumption|]. split; [now rewrite Hu|].
    rewrite peticiones_anotar_iteracion, num_peticiones_anotar_iteracion.
    rewrite !cuenta_anotar, eventos_iteracion_info, eventos_iteracion_dormir, Hd.
    cbn. repeat split; lia.
Qed.


Lemma en_catalogo_cursor_inicial x : Some URL_INICIAL = Some x -> en_catalogo x.
Proof. intros [= <-]. apply en_catalogo_inicial. Qed.

(** X11.  The crawl writes no file and no database, and only adds to the
    log, whether it returns or raises. *)
Theorem crawl_no_escribe :
  forall red pasos w r w',
    obtener_todos_los_productos red pasos w = Some (r, w') ->
    archivos w' = archivos w /\ bases w' = bases w /\
    exists es, traza w' = traza w ++ es.
Proof.
  intros red pasos w r w' H. apply bucle_corre in H.
  destruct (corre_mundo _ _ _ _ _ H en_catalogo_cursor_inicial) as (Ha & Hb & Ht & _).
  auto.
Qed.

Lemma obtener_todos_estable :
  obtener_todos_los_productos red_estable 3 mundo_inicial =
  Some (Ok [producto_A; producto_B; producto_C], mundo_estable).
Proof. vm_compute. reflexivity. Qed.

Lemma crawl_no_escribe_witness :
  obtener_todos_los_productos red_estable 3 mundo_inicial =
    Some (Ok [producto_A; producto_B; producto_C], mundo_estable) /\
  archivos mundo_estable = archivos mundo_inicial /\
  bases mundo_estable = bases mundo_inicial /\
  exists es, traza mundo_estable = traza mundo_inicial ++ es.
Proof.
  exact (conj obtener_todos_estable
           (crawl_no_escribe _ _ _ _ _ obtener_todos_estable)).
Defined.

(** X12.  Every URL the crawl requests is under the catalogue path of the
    site, the first is the start URL, and each is requested twice in a row;
    no other request is made. *)
Theorem crawl_urls_del_catalogo :
  forall red pasos w r w',
    obtener_todos_los_productos red pasos w = Some (r, w') ->
    exists urls,
      head urls = Some URL_INICIAL /\
      Forall en_catalogo urls /\
      peticiones w' = peticiones w ++ dos_veces urls.
Proof.
  intros red pasos w r w' H. apply bucle_corre in H.
  destruct (corre_mundo _ _ _ _ _ H en_catalogo_cursor_inicial)
    as (_ & _ & _ & urls & Hf & Hh & Hp & _).
  exists urls. auto.
Qed.

Lemma crawl_urls_del_catalogo_witness :
  obtener_todos_los_productos red_estable 3 mundo_inicial =
    Some (Ok [producto_A; producto_B; producto_C], mundo_estable) /\
  exists urls,
    head urls = Some URL_INICIAL /\
    Forall en_catalogo urls /\
    peticiones mundo_estable = peticiones mundo_inicial ++ dos_veces urls.
Proof.
  exact (conj obtener_todos_estable
           (crawl_urls_del_catalogo _ _ _ _ _ obtener_todos_estable)).
Defined.

(** X13.  A crawl that went through k pages made 2k requests, logged k
    lines and paused k - 1 times: it pauses between two pages and not after
    the last one. *)
Theorem crawl_pausas :
  forall red pasos w r w',
    obtener_todos_los_productos red pasos w = Some (r, w') ->
    exists k,
      (1 <= k)%nat /\
      num_peticiones w' = (num_peticiones w + 2 * k)%nat /\
      cuenta es_info_scrapeando w' = (cuenta es_info_scrapeando w + k)%nat /\
      (cuenta es_dormir w' + 1 = cuenta es_dormir w + k)%nat.
Proof.
  intros red pasos w r w' H. apply bucle_corre in H.
  destruct (corre_mundo _ _ _ _ _ H en_catalogo_cursor_inicial)
    as (_ & _ & _ & urls & _ & Hh & _ & Hn & Hi & Hs).
  exists (length urls). cbn [snd] in *.
  destruct urls as [|x urls]; [discriminate|]. cbn [length] in *.
  repeat split; lia.
Qed.

Lemma crawl_pausas_witness :
  obtener_todos_los_productos red_estable 3 mundo_inicial =
    Some (Ok [producto_A; producto_B; producto_C], mundo_estable) /\
  exists k,
    (1 <= k)%nat /\
    num_peticiones mundo_estable = (num_peticiones mundo_inicial + 2 * k)%nat /\
    cuenta es_info_scrapeando mundo_estable =
      (cuenta es_info_scrapeando mundo_inicial + k)%nat /\
    (cuenta es_dormir mundo_estable + 1 = cuenta es_dormir mundo_inicial + k)%nat.
Proof.
  exact (conj obtener_todos_estable (crawl_pausas _ _ _ _ _ obtener_todos_estable)).
Defined.




(** ** A next anchor without [href] *)

Lemma bucle_sin_href red url tot w pasos :
  cursor_vivo (Some url) = Some url ->
  destino_de (red (S (num_peticiones w)) url) = SinHref ->
  bucle red (S pasos) (Some url) tot w =
  Some (Lanza KeyError,
        anotar (eventos_iteracion url (red (num_peticiones w) url)
                  (red (S (num_peticiones w)) url)) w).
Proof.
  intros Hu Hd. cbn [bucle]. rewrite Hu, iteracion_anotar. cbv zeta. now rewrite Hd.
Qed.

(** X15.  When the crawl comes to a page whose next anchor has no [href],
    it raises KeyError: the records of the pages before are not returned,
    and the entry point ends with that error and has written no file and no
    database. *)
Theorem crawl_enlace_sin_href :
  forall red w vs fin pasos,
    recorrido red (num_peticiones w) URL_INICIAL vs fin ->
    destino_de (red (S (num_peticiones w + 2 * length vs)) fin) = SinHref ->
    (length vs < pasos)%nat ->
    exists w',
      obtener_todos_los_productos red pasos w = Some (Lanza KeyError, w') /\
      principal red pasos w = Some (Lanza KeyError, w') /\
      archivos w' = archivos w /\ bases w' = bases w.
Proof.
  intros red w vs fin pasos Hr Hd Hp.
  destruct (bucle_recorrido red vs URL_INICIAL fin [] w (pasos - length vs)
              URL_INICIAL_vivo Hr) as (w1 & Hb & Hn & _ & Ha & Hbs).
  replace (length vs + (pasos - length vs))%nat with pasos in Hb by lia.
  destruct (pasos - length vs)%nat as [|k] eqn:Ek; [lia|].
  rewrite <- Hn in Hd.
  rewrite (bucle_sin_href red fin _ w1 k
             (recorrido_fin_vivo _ _ _ _ _ URL_INICIAL_vivo Hr) Hd) in Hb.
  eexists. split; [exact Hb|].
  split; [unfold principal, obtener_todos_los_productos; now rewrite Hb|].
  split; [exact Ha | exact Hbs].
Qed.

Lemma crawl_enlace_sin_href_witness :
  recorrido red_sin_href (num_peticiones mundo_inicial) URL_INICIAL
    [Visita URL_INICIAL (Some pagina_1) pagina_1] URL_PAGINA_2 /\
  destino_de (red_sin_href (S (num_peticiones mundo_inicial + 2 * 1)) URL_PAGINA_2)
    = SinHref /\
  (1 < 2)%nat /\
  exists w',
    obtener_todos_los_productos red_sin_href 2 mundo_inicial = Some (Lanza KeyError, w') /\
    principal red_sin_href 2 mundo_inicial = Some (Lanza KeyError, w') /\
    archivos w' = archivos mundo_inicial /\ bases w' = bases mundo_inicial.
Proof.
  assert (H1 : recorrido red_sin_href (num_peticiones mundo_inicial) URL_INICIAL
                 [Visita URL_INICIAL (Some pagina_1) pagina_1] URL_PAGINA_2).
  { cbn [recorrido v_url v_extraccion v_enlace].
    split; [reflexivity|]. split; [vm_compute; reflexivity|].
    split; [vm_compute; reflexivity|].
    exists URL_PAGINA_2. split; [vm_compute; reflexivity | reflexivity]. }
  assert (H2 : destino_de (red_sin_href (S (num_peticiones mundo_inicial + 2 * 1))
                             URL_PAGINA_2) = SinHref) by (vm_compute; reflexivity).
  assert (H3 : (1 < 2)%nat) by lia.
  refine (conj H1 (conj H2 (conj H3 _))).
  exact (crawl_enlace_sin_href red_sin_href mundo_inicial _ _ 2%nat H1 H2 H3).
Defined.

(** ** The entry point *)







(** ** A site that never omits the next link *)

Lemma bucle_no_retorna red :
  (forall n url, exists url', destino_de (red n url) = Sigue url') ->
  forall pasos url tot w,
    cursor_vivo (Some url) = Some url -> bucle red pasos (Some url) tot w = None.
Proof.
  intros Hs. induction pasos as [|pasos IH]; intros url tot w Hu; cbn [bucle];
    rewrite Hu; [reflexivity|].
  rewrite iteracion_anotar. cbv zeta.
  destruct (Hs (S (num_peticiones w)) url) as [url' Hd]. rewrite Hd.
  apply IH. eapply destino_Sigue_vivo; eassumption.
Qed.

(** X18.  The loop has no bound of its own: on a site every answer of
    which has a next link, no number of iterations brings the crawl to
    return, and the entry point neither. *)
Theorem crawl_sin_final :
  forall red,
    (forall n url, exists url', destino_de (red n url) = Sigue url') ->
    forall pasos w,
      obtener_todos_los_productos red pasos w = None /\
      principal red pasos w = None.
Proof.
  intros red Hs pasos w.
  assert (H : obtener_todos_los_productos red pasos w = None)
    by (apply bucle_no_retorna; [exact Hs | reflexivity]).
  split; [exact H|]. unfold principal. now rewrite H.
Qed.

Lemma crawl_sin_final_witness :
  (forall n url, exists url', destino_de (red_en_ciclo n url) = Sigue url') /\
  obtener_todos_los_productos red_en_ciclo 50 mundo_inicial = None /\
  principal red_en_ciclo 50 mundo_inicial = None.
Proof.
  assert (H : forall n url, exists url', destino_de (red_en_ciclo n url) = Sigue url').
  { intros n url. exists URL_INICIAL. vm_compute. reflexivity. }
  exact (conj H (crawl_sin_final red_en_ciclo H 50%nat mundo_inicial)).
Defined.
